(** * AquaWatch ingestion worker: a shallow embedding of
      [backend/arduino_worker.py] and the properties of its line parser,
      delivery client and supervising loop.

    Conventions of the embedding.
    - A Python [str] is a [string]; each [ascii] stands for the code point of
      the same number, so the strings covered are those whose code points lie
      below 256.  [isspace], [lower] and [float] follow Python on that range.
    - A Python [float] is a binary64 value, [spec_float] of the Standard
      Library; [float(s)] is [py_float], correctly rounded to nearest, ties
      to even.
    - Python exceptions and the calls to [logger], [time.sleep] and
      [requests.post] are modelled by a small monad [M]: a computation yields
      a value or a raised exception, together with the events it emitted, in
      order.
    - The serial port and the network are inputs: every loop iteration
      receives what the port and the collector answer. *)

From Stdlib Require Import ZArith NArith QArith List String Ascii Bool Lia.
From Stdlib Require Import Floats.SpecFloat.
Import ListNotations.

Local Open Scope string_scope.
Local Open Scope Z_scope.

(* ===================================================================== *)
(** * Python strings *)
(* ===================================================================== *)

Module PyStr.

(** [str.isspace] on one character: the white space code points below 256
    are 9-13, 28-32, 133 and 160. *)
Definition isspace (c : ascii) : bool :=
  let n := N_of_ascii c in
  (((9 <=? n) && (n <=? 13)) || ((28 <=? n) && (n <=? 32))
   || (n =? 133) || (n =? 160))%N.

(** [str.lower] on one character: A-Z, and the upper-case letters of the
    Latin-1 block (192-222 but 215, the multiplication sign). *)
Definition lower_char (c : ascii) : ascii :=
  let n := N_of_ascii c in
  if (((65 <=? n) && (n <=? 90))
      || ((192 <=? n) && (n <=? 222) && negb (n =? 215)))%N
  then ascii_of_N (n + 32) else c.

Fixpoint lower (s : string) : string :=
  match s with
  | EmptyString => EmptyString
  | String c s' => String (lower_char c) (lower s')
  end.

(** Every character of [s] satisfies [P]. *)
Fixpoint all_chars (P : ascii -> bool) (s : string) : bool :=
  match s with
  | EmptyString => true
  | String c s' => P c && all_chars P s'
  end.

(** [len(s)] *)
Definition len (s : string) : nat := String.length s.

(** [not s] for a string: true on the empty string only. *)
Definition is_empty (s : string) : bool :=
  match s with EmptyString => true | _ => false end.

(** [sub in s] *)
Fixpoint contains (sub s : string) : bool :=
  prefix sub s ||
  match s with
  | EmptyString => false
  | String _ s' => contains sub s'
  end.

(** [s.replace(c, '')] for a one-character [c]. *)
Fixpoint remove_char (c : ascii) (s : string) : string :=
  match s with
  | EmptyString => EmptyString
  | String a s' =>
      if Ascii.eqb a c then remove_char c s' else String a (remove_char c s')
  end.

Fixpoint lstrip (s : string) : string :=
  match s with
  | EmptyString => EmptyString
  | String c s' => if isspace c then lstrip s' else s
  end.

(** [rstrip] keeps a character when it is not white space or when
    something is kept after it. *)
Fixpoint rstrip (s : string) : string :=
  match s with
  | EmptyString => EmptyString
  | String c s' =>
      match rstrip s' with
      | EmptyString => if isspace c then EmptyString else String c EmptyString
      | r => String c r
      end
  end.

(** [s.strip()] *)
Definition strip (s : string) : string := rstrip (lstrip s).

(** [s.split()] without argument: the maximal runs of characters that are
    not white space.  [split_from s] returns the run that starts [s]
    (possibly empty) and the runs after it. *)
Definition push_token (tok : string) (rest : list string) : list string :=
  match tok with EmptyString => rest | _ => tok :: rest end.

Fixpoint split_from (s : string) : string * list string :=
  match s with
  | EmptyString => (EmptyString, [])
  | String c s' =>
      let '(tok, rest) := split_from s' in
      if isspace c then (EmptyString, push_token tok rest)
      else (String c tok, rest)
  end.

Definition split (s : string) : list string :=
  let '(tok, rest) := split_from s in push_token tok rest.

End PyStr.

(* ===================================================================== *)
(** * Python floats *)
(* ===================================================================== *)

Module PyFloat.
Import PyStr.

Definition float := spec_float.

Definition nan : float := S754_nan.
Definition inf (s : bool) : float := S754_infinity s.

(** ** Rounding a rational to binary64, nearest with ties to even *)

(** [ilog2 n d] is the integer [l] with [2^l <= n/d < 2^(l+1)]. *)
Definition ilog2 (n d : positive) : Z :=
  let a := Z.log2 (Zpos n) in
  let b := Z.log2 (Zpos d) in
  if Zpos d * 2 ^ a <=? Zpos n * 2 ^ b then a - b else a - b - 1.

(** The integer nearest to [N/D], ties to the even one. *)
Definition round_half_even (N D : Z) : Z :=
  let f := N / D in
  let r := N mod D in
  match 2 * r ?= D with
  | Lt => f
  | Gt => f + 1
  | Eq => if Z.even f then f else f + 1
  end.

(** Mantissa [m] at exponent [e], with sign [s]: zero when the mantissa
    vanished, infinite above the largest exponent of the format. *)
Definition pack (s : bool) (m e : Z) : float :=
  match m with
  | Zpos p => if 971 <? e then S754_infinity s else S754_finite s p e
  | _ => S754_zero s
  end.

(** The binary64 value nearest to [n/d], with sign [s] ([n >= 0]).  The
    exponent is that of the binade of [n/d], or the least one of the
    format for subnormal values; a mantissa rounded up to [2^53] moves to
    the next binade. *)
Definition round_binary64 (s : bool) (n : Z) (d : positive) : float :=
  match n with
  | Zpos p =>
      let e := Z.max (ilog2 p d - 52) (-1074) in
      let m := if 0 <=? e then round_half_even n (Zpos d * 2 ^ e)
               else round_half_even (n * 2 ^ (- e)) (Zpos d) in
      if m =? 2 ^ 53 then pack s (2 ^ 52) (e + 1) else pack s m e
  | _ => S754_zero s
  end.

(** [sign * n * 10^ex] rounded. *)
Definition round_decimal (s : bool) (n ex : Z) : float :=
  if 0 <=? ex then round_binary64 s (n * 10 ^ ex) 1
  else round_binary64 s n (Z.to_pos (10 ^ (- ex))).

(** A Python [int] used where a float is compared. *)
Definition of_int (z : Z) : float :=
  round_binary64 (z <? 0) (Z.abs z) 1.

(** Comparisons; every comparison with [nan] is false. *)
Definition le (x y : float) : bool := SFleb x y.
Definition lt (x y : float) : bool := SFltb x y.

(** ** [float(s)] *)

Definition is_digit (c : ascii) : bool :=
  let n := N_of_ascii c in ((48 <=? n) && (n <=? 57))%N.

Definition digit_val (c : ascii) : Z := Z.of_N (N_of_ascii c) - 48.

Definition all_digits (s : string) : bool := all_chars is_digit s.

(** The number written by the digits of [s], after the digits already
    read as [acc]. *)
Fixpoint digits_value (acc : Z) (s : string) : Z :=
  match s with
  | EmptyString => acc
  | String c s' => digits_value (10 * acc + digit_val c) s'
  end.

(** The longest prefix of digits, and what follows it. *)
Fixpoint span_digits (s : string) : string * string :=
  match s with
  | String c s' =>
      if is_digit c
      then let '(ds, r) := span_digits s' in (String c ds, r)
      else (EmptyString, s)
  | EmptyString => (EmptyString, EmptyString)
  end.

(** An optional sign: [true] for a minus. *)
Definition take_sign (s : string) : bool * string :=
  match s with
  | String "-" s' => (true, s')
  | String "+" s' => (false, s')
  | _ => (false, s)
  end.

(** An underscore is accepted between two digits only; [prev] tells
    whether the character before is a digit. *)
Fixpoint underscores_ok (prev : bool) (s : string) : bool :=
  match s with
  | EmptyString => true
  | String "_" s' =>
      prev && match s' with
              | String c _ => is_digit c
              | EmptyString => false
              end && underscores_ok false s'
  | String c s' => underscores_ok (is_digit c) s'
  end.

(** The exponent part, after the digits and the point: nothing, or [e] or
    [E], an optional sign and at least one digit. *)
Definition parse_exponent (s : string) : option Z :=
  match s with
  | EmptyString => Some 0
  | String c s' =>
      if Ascii.eqb (lower_char c) "e" then
        let '(neg, ds) := take_sign s' in
        if negb (is_empty ds) && all_digits ds
        then Some (if neg then - digits_value 0 ds else digits_value 0 ds)
        else None
      else None
  end.

(** A number: digits, an optional point and digits (one digit at least),
    an optional exponent. *)
Definition parse_number (s : bool) (body : string) : option float :=
  let '(ip, r1) := span_digits body in
  let '(fp, r2) := match r1 with
                   | String "." t => span_digits t
                   | _ => (EmptyString, r1)
                   end in
  if is_empty ip && is_empty fp then None
  else match parse_exponent r2 with
       | Some ex =>
           Some (round_decimal s (digits_value 0 (ip ++ fp))
                               (ex - Z.of_nat (len fp)))
       | None => None
       end.

(** [float(s)]: [None] stands for [ValueError]. *)
Definition py_float (s : string) : option float :=
  let t := strip s in
  let '(neg, body) := take_sign t in
  let low := lower body in
  if String.eqb low "inf" || String.eqb low "infinity" then Some (inf neg)
  else if String.eqb low "nan" then Some nan
  else if underscores_ok false t
       then parse_number neg (remove_char "_" body)
       else None.

End PyFloat.

(* ===================================================================== *)
(** * Exceptions and effects *)
(* ===================================================================== *)

Module Eff.
Import PyFloat.

(** The exceptions the worker meets.  [KeyboardInterrupt] is the only one
    that is not an [Exception]. *)
Inductive exn : Type :=
| ValueError
| IndexError
| RequestException
| SerialException
| RuntimeError
| KeyboardInterrupt.

Definition is_Exception (e : exn) : bool :=
  match e with KeyboardInterrupt => false | _ => true end.

Definition is_ValueError_or_IndexError (e : exn) : bool :=
  match e with ValueError | IndexError => true | _ => false end.

Definition is_RequestException (e : exn) : bool :=
  match e with RequestException => true | _ => false end.

Definition is_SerialException (e : exn) : bool :=
  match e with SerialException => true | _ => false end.

Definition is_KeyboardInterrupt (e : exn) : bool :=
  match e with KeyboardInterrupt => true | _ => false end.

(** [schemas.SensorReadingCreate] *)
Record SensorReadingCreate : Type := {
  ph : float;
  tds : float;
  turbidity : float
}.

Inductive level : Type := DEBUG | INFO | WARNING | ERROR.

(** What a log record says; the payload is what the source formats into
    the text. *)
Inductive message : Type :=
| IncompleteData (line : string)
| InvalidPh (v : float)
| TdsOutOfRange (v : float)
| TurbidityOutOfRange (v : float)
| ParseFailed (line : string) (e : exn)
| SentOk (data : SensorReadingCreate)
| ApiStatus (status_code : Z) (text : string)
| AttemptFailed (attempt retries : Z) (e : exn)
| SendFailed (retries : Z)
| Initializing
| Connected (port : string)
| ConnectFailed (attempt retries : Z) (e : exn)
| ConnectGaveUp (retries : Z)
| ConnectAdvice (item : Z) (port : string)
| ReceivedLine (line : string)
| CouldNotParse (line : string)
| TooManyErrors (consecutive_errors : Z)
| LoopError (e : exn)
| StoppedByUser
| ConnectionClosed.

Inductive event : Type :=
| Log (lvl : level) (m : message)
| Sleep (seconds : Q)
| Post (url : string) (data : SensorReadingCreate) (timeout : Z)
| InitDb
| SerialOpen (port : string) (baud : Z)
| SerialClose.

Inductive outcome (A : Type) : Type :=
| Val (a : A)
| Exc (e : exn).
Arguments Val {A} a.
Arguments Exc {A} e.

(** A computation: its outcome and the events it emitted, oldest first. *)
Definition M (A : Type) : Type := outcome A * list event.

Definition ret {A} (a : A) : M A := (Val a, []).
Definition raise {A} (e : exn) : M A := (Exc e, []).
Definition emit (ev : event) : M unit := (Val tt, [ev]).

Definition bind {A B} (m : M A) (k : A -> M B) : M B :=
  match m with
  | (Val a, w) => let '(r, w') := k a in (r, (w ++ w')%list)
  | (Exc e, w) => (Exc e, w)
  end.

(** [try: m  except <catches> as e: handler e] *)
Definition try_except {A} (m : M A) (catches : exn -> bool)
           (handler : exn -> M A) : M A :=
  match m with
  | (Exc e, w) =>
      if catches e then let '(r, w') := handler e in (r, (w ++ w')%list)
      else (Exc e, w)
  | v => v
  end.

(** [try: m  finally: f] *)
Definition try_finally {A} (m : M A) (f : M unit) : M A :=
  match m, f with
  | (r, w), (Val _, w') => (r, (w ++ w')%list)
  | (_, w), (Exc e, w') => (Exc e, (w ++ w')%list)
  end.

Definition result {A} (m : M A) : outcome A := fst m.
Definition events {A} (m : M A) : list event := snd m.

(** [for x in xs: s = body s x] *)
Fixpoint for_each {A S} (xs : list A) (body : S -> A -> M S) (s : S)
  : M S :=
  match xs with
  | [] => ret s
  | x :: xs' => bind (body s x) (for_each xs' body)
  end.

Definition log (lvl : level) (m : message) : M unit := emit (Log lvl m).
Definition sleep (seconds : Q) : M unit := emit (Sleep seconds).

(** [range(n)] *)
Definition range (n : Z) : list Z := map Z.of_nat (seq 0 (Z.to_nat n)).

(** [enumerate(xs)] *)
Definition enumerate {A} (xs : list A) : list (nat * A) :=
  combine (seq 0 (List.length xs)) xs.

End Eff.

Declare Scope py_scope.
Notation "x <- c1 ;; c2" := (Eff.bind c1 (fun x => c2))
  (at level 61, c1 at next level, right associativity) : py_scope.
Notation "c1 ;; c2" := (Eff.bind c1 (fun _ => c2))
  (at level 61, right associativity) : py_scope.
Local Open Scope py_scope.

(* ===================================================================== *)
(** * The worker: [backend/arduino_worker.py] *)
(* ===================================================================== *)

Module Worker.
Import PyStr PyFloat Eff.

Definition PORT : string := "COM3".
Definition BAUD_RATE : Z := 9600.
Definition API_URL : string := "http://127.0.0.1:8000/sensor".
Definition MAX_RETRIES : Z := 3.
Definition RETRY_DELAY : Q := 2.

(** ** [parse_sensor_line] *)

(** [float(parts[k].replace(':', ''))] *)
Definition float_at (parts : list string) (k : nat) : M float :=
  match nth_error parts k with
  | None => raise IndexError
  | Some tok =>
      match py_float (remove_char ":" tok) with
      | Some v => ret v
      | None => raise ValueError
      end
  end.

(** The block the source repeats for each field and each strategy:
    [try: value = float(parts[k].replace(':', ''))]
    [except (ValueError, IndexError): pass]
    The variable keeps [current] when the exception is caught. *)
Definition try_float_at (current : option float) (parts : list string)
           (k : nat) : M (option float) :=
  try_except (v <- float_at parts k ;; ret (Some v))
             is_ValueError_or_IndexError
             (fun _ => ret current).

(** One keyword loop:
    [for i, part in enumerate(parts):]
    [    part_lower = part.lower()]
    [    if <keyword in part_lower> and i + 1 < len(parts): <try block>] *)
Definition keyword_loop (hit : string -> bool) (parts : list string)
  : M (option float) :=
  for_each (enumerate parts)
    (fun value '(i, part) =>
       let part_lower := lower part in
       if hit part_lower && (i + 1 <? List.length parts)%nat
       then try_float_at value parts (i + 1)
       else ret value)
    None.

Definition hit_ph (part_lower : string) : bool := contains "ph" part_lower.
Definition hit_tds (part_lower : string) : bool := contains "tds" part_lower.
Definition hit_turbidity (part_lower : string) : bool :=
  contains "turbidity" part_lower || contains "turb" part_lower.

(** [if value is None and len(parts) > k: <try block at k>] *)
Definition fallback (value : option float) (parts : list string) (k : nat)
  : M (option float) :=
  match value with
  | None => if (k <? List.length parts)%nat then try_float_at value parts k
            else ret value
  | Some _ => ret value
  end.

(** Both strategies, for the three fields (lines 37-88). *)
Definition extract_fields (parts : list string)
  : M (option float * option float * option float) :=
  ph_value <- keyword_loop hit_ph parts ;;
  tds_value <- keyword_loop hit_tds parts ;;
  turbidity_value <- keyword_loop hit_turbidity parts ;;
  ph_value <- fallback ph_value parts 1 ;;
  tds_value <- fallback tds_value parts 4 ;;
  turbidity_value <- fallback turbidity_value parts 6 ;;
  ret (ph_value, tds_value, turbidity_value).

(** The validation (lines 90-107). *)
Definition validate (line : string)
           (fields : option float * option float * option float)
  : M (option SensorReadingCreate) :=
  match fields with
  | (Some ph_value, Some tds_value, Some turbidity_value) =>
      if negb (le (of_int 0) ph_value && le ph_value (of_int 14)) then
        log WARNING (InvalidPh ph_value) ;; ret None
      else
        (if lt tds_value (of_int 0) || lt (of_int 10000) tds_value
         then log WARNING (TdsOutOfRange tds_value) else ret tt) ;;
        (if lt turbidity_value (of_int 0) || lt (of_int 100) turbidity_value
         then log WARNING (TurbidityOutOfRange turbidity_value)
         else ret tt) ;;
        ret (Some {| ph := ph_value; tds := tds_value;
                     turbidity := turbidity_value |})
  | _ => log WARNING (IncompleteData line) ;; ret None
  end.

(** The body of the outer [try]. *)
Definition parse_body (line : string) : M (option SensorReadingCreate) :=
  let parts := split line in
  fields <- extract_fields parts ;;
  validate line fields.

Definition parse_sensor_line (line : string)
  : M (option SensorReadingCreate) :=
  if is_empty line || (len (strip line) =? 0)%nat then ret None
  else try_except (parse_body line) is_Exception
         (fun e => log DEBUG (ParseFailed line e) ;; ret None).

(** ** [send_sensor_data] *)

(** What one call of [requests.post] does: a response, or an exception. *)
Inductive post_result : Type :=
| Response (status_code : Z) (text : string)
| PostRaises (e : exn).

(** The collector as seen from one call of [send_sensor_data]: the answer
    to each attempt. *)
Definition network : Type := Z -> post_result.

Definition requests_post (net : network) (attempt : Z)
           (data : SensorReadingCreate) : M (Z * string) :=
  emit (Post API_URL data 5) ;;
  match net attempt with
  | Response status_code text => ret (status_code, text)
  | PostRaises e => raise e
  end.

(** One turn of the loop; [Some b] is [return b], [None] goes on with
    the next attempt. *)
Definition send_attempt (net : network) (data : SensorReadingCreate)
           (retries attempt : Z) : M (option bool) :=
  try_except
    (response <- requests_post net attempt data ;;
     if fst response =? 200 then
       log DEBUG (SentOk data) ;; ret (Some true)
     else
       log WARNING (ApiStatus (fst response) (snd response)) ;; ret None)
    is_RequestException
    (fun e =>
       log WARNING (AttemptFailed (attempt + 1) retries e) ;;
       (if attempt <? retries - 1 then sleep RETRY_DELAY else ret tt) ;;
       ret None).

Fixpoint send_attempts (net : network) (data : SensorReadingCreate)
         (retries : Z) (attempts : list Z) : M bool :=
  match attempts with
  | [] => log ERROR (SendFailed retries) ;; ret false
  | attempt :: rest =>
      r <- send_attempt net data retries attempt ;;
      match r with
      | Some b => ret b
      | None => send_attempts net data retries rest
      end
  end.

Definition send_sensor_data (net : network) (data : SensorReadingCreate)
           (retries : Z) : M bool :=
  send_attempts net data retries (range retries).

(** ** The loop of [main] *)

(** What the serial port and the collector do during one iteration. *)
Record iteration_input : Type := {
  in_waiting : outcome Z;         (* [arduino.in_waiting] *)
  readline : outcome string;      (* [arduino.readline().decode(...)] *)
  net : network
}.

Definition of_outcome {A} (o : outcome A) : M A := (o, []).

Definition max_consecutive_errors : Z := 10.

(** How the body of the [try] in the loop ends, with the value of
    [consecutive_errors] then. *)
Inductive flow : Type :=
| Next (consecutive_errors : Z)       (* falls off the end of the body *)
| Continue (consecutive_errors : Z)   (* [continue] *)
| Break (consecutive_errors : Z).     (* [break] *)

Definition counter_of (f : flow) : Z :=
  match f with Next c | Continue c | Break c => c end.

(** Lines 169-191.  [consecutive_errors] is assigned by the last
    statement of its branch only, so an exception raised in the body
    leaves it at its value on entry. *)
Definition iteration_body (w : iteration_input) (consecutive_errors : Z)
  : M flow :=
  n <- of_outcome (in_waiting w) ;;
  r <- (if 0 <? n then
          raw <- of_outcome (readline w) ;;
          let line := strip raw in
          if is_empty line then ret (inl consecutive_errors)
          else
            log DEBUG (ReceivedLine line) ;;
            data <- parse_sensor_line line ;;
            match data with
            | Some d =>
                ok <- send_sensor_data (net w) d MAX_RETRIES ;;
                if ok : bool then ret (inr 0)
                else ret (inr (consecutive_errors + 1))
            | None =>
                log DEBUG (CouldNotParse line) ;;
                ret (inr consecutive_errors)
            end
        else ret (inr consecutive_errors)) ;;
  match r with
  | inl c => ret (Continue c)
  | inr c =>
      sleep (1 # 10) ;;
      if max_consecutive_errors <=? c then
        log ERROR (TooManyErrors c) ;; ret (Break c)
      else ret (Next c)
  end.

(** One iteration with its [except Exception] (lines 168-196). *)
Definition iteration (w : iteration_input) (consecutive_errors : Z)
  : M flow :=
  try_except (iteration_body w consecutive_errors) is_Exception
    (fun e =>
       log ERROR (LoopError e) ;;
       sleep 1 ;;
       ret (Next (consecutive_errors + 1))).

(** How far the loop got on the iterations given. *)
Inductive loop_state : Type :=
| Running (consecutive_errors : Z)   (* the inputs ran out, no exit yet *)
| Exited (consecutive_errors : Z).   (* left by [break] *)

(** [while True:] over the inputs of the successive iterations. *)
Fixpoint while_true (ws : list iteration_input) (consecutive_errors : Z)
  : M loop_state :=
  match ws with
  | [] => ret (Running consecutive_errors)
  | w :: ws' =>
      f <- iteration w consecutive_errors ;;
      match f with
      | Break c => ret (Exited c)
      | Next c | Continue c => while_true ws' c
      end
  end.

(** ** The start of [main]: connecting to the port (lines 142-161) *)

Definition connection_retries : Z := 5.

(** How one turn of the connection loop ends. *)
Inductive connect_step : Type :=
| Acquired    (* [break], the port is open *)
| TryAgain    (* the next attempt, if there is one *)
| GaveUp.     (* [return] *)

(** [serial_open attempt] is what [serial.Serial(PORT, BAUD_RATE, timeout=1)]
    does at that attempt. *)
Definition connect_attempt (serial_open : Z -> outcome unit) (attempt : Z)
  : M connect_step :=
  try_except
    (emit (SerialOpen PORT BAUD_RATE) ;;
     of_outcome (serial_open attempt) ;;
     log INFO (Connected PORT) ;;
     sleep 2 ;;
     ret Acquired)
    is_SerialException
    (fun e =>
       log WARNING (ConnectFailed (attempt + 1) connection_retries e) ;;
       if attempt <? connection_retries - 1 then
         sleep 2 ;; ret TryAgain
       else
         log ERROR (ConnectGaveUp connection_retries) ;;
         log ERROR (ConnectAdvice 0 PORT) ;;
         log ERROR (ConnectAdvice 1 PORT) ;;
         log ERROR (ConnectAdvice 2 PORT) ;;
         log ERROR (ConnectAdvice 3 PORT) ;;
         ret GaveUp).

(** The loop over the attempts; [TryAgain] at the end is the loop running
    out with [arduino] still [None]. *)
Fixpoint connect_attempts (serial_open : Z -> outcome unit)
         (attempts : list Z) : M connect_step :=
  match attempts with
  | [] => ret TryAgain
  | attempt :: rest =>
      s <- connect_attempt serial_open attempt ;;
      match s with
      | TryAgain => connect_attempts serial_open rest
      | Acquired | GaveUp => ret s
      end
  end.

Definition connect (serial_open : Z -> outcome unit) : M connect_step :=
  connect_attempts serial_open (range connection_retries).

(** ** [main] *)

(** What the world does during one run of [main]. *)
Record world : Type := {
  db_init : outcome unit;             (* [init_db()] *)
  serial_open : Z -> outcome unit;    (* [serial.Serial(...)], per attempt *)
  iterations : list iteration_input;  (* the loop iterations, in order *)
  is_open : bool                      (* [arduino.is_open] at the end *)
}.

(** How the run ends.  [StillRunning]: the iterations given ran out with
    the loop still going.  [LoopWithoutPort]: the connection loop ran out
    and the main loop would start with [arduino] still [None]; the run is
    not followed further ([connect] never ends that way with five
    attempts). *)
Inductive main_exit : Type :=
| NotConnected
| LoopWithoutPort
| StillRunning (consecutive_errors : Z)
| BreakerTripped (consecutive_errors : Z)
| Interrupted.

(** The [finally] clause, with [arduino] set. *)
Definition close_port (w : world) : M unit :=
  if is_open w then emit SerialClose ;; log INFO ConnectionClosed
  else ret tt.

(** The [try] around the loop, with [except KeyboardInterrupt] and
    [finally]; when the iterations given run out the loop is still going
    and nothing of the two clauses has run. *)
Definition supervise (w : world) : M main_exit :=
  match while_true (iterations w) 0 with
  | (Val (Running c), evs) => (Val (StillRunning c), evs)
  | loop =>
      try_finally
        (try_except
           (st <- loop ;;
            match st with
            | Exited c => ret (BreakerTripped c)
            | Running c => ret (StillRunning c)
            end)
           is_KeyboardInterrupt
           (fun _ => log INFO StoppedByUser ;; ret Interrupted))
        (close_port w)
  end.

Definition main (w : world) : M main_exit :=
  log INFO Initializing ;;
  emit InitDb ;;
  of_outcome (db_init w) ;;
  s <- connect (serial_open w) ;;
  match s with
  | GaveUp => ret NotConnected
  | Acquired => supervise w
  | TryAgain => ret LoopWithoutPort
  end.

End Worker.

(* ===================================================================== *)
(** * The collector: [backend/db.py], [backend/crud.py], [backend/main.py] *)
(* ===================================================================== *)

(** The server side has its own exceptions and events; its computations
    are those of [Eff] over them.  The database, the clock and the parsing
    of time stamps are inputs. *)
Module Srv.
Import PyStr PyFloat.

Inductive exn : Type :=
| ValueError
| OSError
| OperationalError                                   (* [sqlite3] *)
| DatabaseError                                      (* [sqlite3], other *)
| HTTPException (status_code : Z) (detail : string)  (* [fastapi] *)
| KeyboardInterrupt.

Definition is_Exception (e : exn) : bool :=
  match e with KeyboardInterrupt => false | _ => true end.

Definition is_OperationalError (e : exn) : bool :=
  match e with OperationalError => true | _ => false end.

Definition is_HTTPException (e : exn) : bool :=
  match e with HTTPException _ _ => true | _ => false end.

Definition is_ValueError (e : exn) : bool :=
  match e with ValueError => true | _ => false end.

(** [datetime]: microseconds since the epoch. *)
Definition datetime : Type := Z.

(** [schemas.SensorReading] *)
Record SensorReading : Type := {
  id : Z;
  timestamp : datetime;
  reading_ph : float;
  reading_tds : float;
  reading_turbidity : float
}.

(** [schemas.HistoryPoint] *)
Record HistoryPoint : Type := {
  time : datetime;
  point_ph : float;
  point_tds : float;
  point_turbidity : float
}.

(** A row of [sensor_data] as sqlite returns it: the time stamp is text. *)
Record row : Type := {
  row_id : Z;
  row_timestamp : string;
  row_ph : float;
  row_tds : float;
  row_turbidity : float
}.

(** The SQL statements, with their parameters. *)
Inductive sql : Type :=
| PragmaForeignKeys
| PragmaJournalWal
| CreateSensorData
| CreateSensorDataIndex
| CreatePings
| CreatePingsIndex
| AlterPingsAddComments
| InsertSensorData (ph tds turbidity : float)
| SelectSensorDataById (row_id : Z)
| SelectLatestSensorData
| SelectSensorDataSince (start_seconds : Z).

Inductive message : Type :=
| DbInitializing
| DbAddedComments
| DbInitialized
| DbInitFailed (e : exn)
| CrudCreateFailed (e : exn)
| CrudLatestFailed (e : exn)
| CrudHistoryFailed (e : exn)
| ApiCreated (reading : SensorReading)
| ApiCreateFailed (e : exn)
| ApiLatest (reading_id : Z)
| ApiLatestFailed (e : exn)
| ApiHistory (points : nat) (period : string)
| ApiInvalidPeriod (e : exn)
| ApiHistoryFailed (e : exn).

Inductive event : Type :=
| Log (lvl : Eff.level) (m : message)
| Mkdir
| DbOpen
| DbExecute (statement : sql)
| DbCommit
| DbRollback
| DbClose.

Inductive outcome (A : Type) : Type :=
| Val (a : A)
| Exc (e : exn).
Arguments Val {A} a.
Arguments Exc {A} e.

Definition M (A : Type) : Type := outcome A * list event.

Definition ret {A} (a : A) : M A := (Val a, []).
Definition raise {A} (e : exn) : M A := (Exc e, []).
Definition emit (ev : event) : M unit := (Val tt, [ev]).
Definition of_outcome {A} (o : outcome A) : M A := (o, []).
Definition log (lvl : Eff.level) (m : message) : M unit := emit (Log lvl m).

Definition bind {A B} (m : M A) (k : A -> M B) : M B :=
  match m with
  | (Val a, w) => let '(r, w') := k a in (r, (w ++ w')%list)
  | (Exc e, w) => (Exc e, w)
  end.

(** [try: m  except <catches> as e: handler e] *)
Definition try_except {A} (m : M A) (catches : exn -> bool)
           (handler : exn -> M A) : M A :=
  match m with
  | (Exc e, w) =>
      if catches e then let '(r, w') := handler e in (r, (w ++ w')%list)
      else (Exc e, w)
  | v => v
  end.

(** [try: m  finally: f] *)
Definition try_finally {A} (m : M A) (f : M unit) : M A :=
  match m, f with
  | (r, w), (Val _, w') => (r, (w ++ w')%list)
  | (_, w), (Exc e, w') => (Exc e, (w ++ w')%list)
  end.

Definition result {A} (m : M A) : outcome A := fst m.
Definition events {A} (m : M A) : list event := snd m.

(** What sqlite, the file system, the clock and the parsers of time
    stamps do during one call. *)
Record database : Type := {
  mkdir : outcome unit;              (* [DB_PATH.parent.mkdir(...)] *)
  open : outcome unit;               (* [sqlite3.connect(...)] *)
  execute : sql -> outcome unit;     (* [execute] of each statement *)
  lastrowid : Z;                     (* [cur.lastrowid] after the insert *)
  fetchone : option row;             (* [cur.fetchone()] *)
  fetchall : list row;               (* [cur.fetchall()] *)
  commit : outcome unit;
  rollback : outcome unit;
  close : outcome unit;
  utcnow : datetime;                         (* [datetime.utcnow()] *)
  fromisoformat : string -> option datetime; (* [datetime.fromisoformat] *)
  parse_time : string -> option datetime     (* pydantic, [HistoryPoint] *)
}.

End Srv.

Declare Scope srv_scope.
Notation "x <- c1 ;; c2" := (Srv.bind c1 (fun x => c2))
  (at level 61, c1 at next level, right associativity) : srv_scope.
Notation "c1 ;; c2" := (Srv.bind c1 (fun _ => c2))
  (at level 61, right associativity) : srv_scope.

(** ** [backend/db.py] *)
Module Db.
Import PyStr PyFloat Srv.
Local Open Scope srv_scope.

(** [conn.execute(statement)] / [cur.execute(statement)] *)
Definition run (db : database) (statement : sql) : M unit :=
  emit (DbExecute statement) ;; of_outcome (execute db statement).

Definition get_connection (db : database) : M unit :=
  emit DbOpen ;;
  of_outcome (open db) ;;
  run db PragmaForeignKeys ;;
  run db PragmaJournalWal ;;
  ret tt.

Definition init_db (db : database) : M unit :=
  log Eff.INFO DbInitializing ;;
  emit Mkdir ;;
  of_outcome (mkdir db) ;;
  get_connection db ;;
  try_finally
    (try_except
       (run db CreateSensorData ;;
        run db CreateSensorDataIndex ;;
        run db CreatePings ;;
        run db CreatePingsIndex ;;
        try_except
          (run db AlterPingsAddComments ;;
           log Eff.INFO DbAddedComments)
          is_OperationalError
          (fun _ => ret tt) ;;
        emit DbCommit ;;
        of_outcome (commit db) ;;
        log Eff.INFO DbInitialized)
       is_Exception
       (fun e =>
          emit DbRollback ;;
          of_outcome (rollback db) ;;
          log Eff.ERROR (DbInitFailed e) ;;
          raise e))
    (emit DbClose ;; of_outcome (close db)).

End Db.

(** ** [backend/crud.py] *)
Module Crud.
Import PyStr PyFloat Srv Db.
Local Open Scope srv_scope.

(** [s.replace('Z', '+00:00')] *)
Fixpoint replace_Z (s : string) : string :=
  match s with
  | EmptyString => EmptyString
  | String c s' =>
      if Ascii.eqb c "Z" then "+00:00" ++ replace_Z s'
      else String c (replace_Z s')
  end.

(** The end of [create_sensor_reading] and [get_latest_sensor_reading]:
    the time stamp, a string, is parsed, and the model is built. *)
Definition to_reading (db : database) (r : row) : M SensorReading :=
  match fromisoformat db (replace_Z (row_timestamp r)) with
  | Some t =>
      ret {| id := row_id r; timestamp := t; reading_ph := row_ph r;
             reading_tds := row_tds r; reading_turbidity := row_turbidity r |}
  | None => raise ValueError
  end.

Definition create_sensor_reading (db : database)
           (data : Eff.SensorReadingCreate) : M SensorReading :=
  get_connection db ;;
  try_finally
    (try_except
       (run db (InsertSensorData (Eff.ph data) (Eff.tds data)
                                 (Eff.turbidity data)) ;;
        emit DbCommit ;;
        of_outcome (commit db) ;;
        let row_id := lastrowid db in
        run db (SelectSensorDataById row_id) ;;
        match fetchone db with
        | None => raise ValueError
        | Some r => to_reading db r
        end)
       is_Exception
       (fun e =>
          emit DbRollback ;;
          of_outcome (rollback db) ;;
          log Eff.ERROR (CrudCreateFailed e) ;;
          raise e))
    (emit DbClose ;; of_outcome (close db)).

Definition get_latest_sensor_reading (db : database)
  : M (option SensorReading) :=
  get_connection db ;;
  try_finally
    (try_except
       (run db SelectLatestSensorData ;;
        match fetchone db with
        | None => ret None
        | Some r => reading <- to_reading db r ;; ret (Some reading)
        end)
       is_Exception
       (fun e => log Eff.ERROR (CrudLatestFailed e) ;; raise e))
    (emit DbClose ;; of_outcome (close db)).

(** The days of a period; [None] is the [else] branch, [ValueError]. *)
Definition period_days (period : string) : option Z :=
  if String.eqb period "1day" then Some 1
  else if String.eqb period "1month" then Some 30
  else if String.eqb period "6months" then Some 180
  else None.

Definition microseconds_per_day : Z := 86400 * 1000000.

(** [start.strftime('%Y-%m-%d %H:%M:%S')]: the time to the second; the
    text stands for the number of whole seconds. *)
Definition strftime_seconds (t : datetime) : Z := t / 1000000.

(** A [HistoryPoint] built from a row: the field [time] is parsed from the
    text. *)
Definition to_point (db : database) (r : row) : M HistoryPoint :=
  match parse_time db (row_timestamp r) with
  | Some t =>
      ret {| time := t; point_ph := row_ph r; point_tds := row_tds r;
             point_turbidity := row_turbidity r |}
  | None => raise ValueError
  end.

(** The list of the points of the rows, in order. *)
Fixpoint to_points (db : database) (rows : list row)
  : M (list HistoryPoint) :=
  match rows with
  | [] => ret []
  | r :: rest =>
      p <- to_point db r ;;
      ps <- to_points db rest ;;
      ret (p :: ps)
  end.

Definition get_history (db : database) (period : string)
  : M (list HistoryPoint) :=
  let now := utcnow db in
  match period_days period with
  | None => raise ValueError
  | Some days =>
      let start := now - days * microseconds_per_day in
      get_connection db ;;
      try_finally
        (try_except
           (let start_str := strftime_seconds start in
            run db (SelectSensorDataSince start_str) ;;
            to_points db (fetchall db))
           is_Exception
           (fun e => log Eff.ERROR (CrudHistoryFailed e) ;; raise e))
        (emit DbClose ;; of_outcome (close db))
  end.

End Crud.

(** ** [backend/main.py] *)
Module Api.
Import PyStr PyFloat Srv Db Crud.
Local Open Scope srv_scope.

(** [raise HTTPException(...)] where nothing is returned. *)
Definition reject_if (test : bool) (status_code : Z) (detail : string)
  : M unit :=
  if test then raise (HTTPException status_code detail) else ret tt.

(** [POST /sensor] *)
Definition create_sensor (db : database) (data : Eff.SensorReadingCreate)
  : M SensorReading :=
  try_except
    (reject_if (negb (le (of_int 0) (Eff.ph data)
                      && le (Eff.ph data) (of_int 14)))
               400 "pH must be between 0 and 14" ;;
     reject_if (lt (Eff.tds data) (of_int 0))
               400 "TDS must be non-negative" ;;
     reject_if (lt (Eff.turbidity data) (of_int 0))
               400 "Turbidity must be non-negative" ;;
     reading <- create_sensor_reading db data ;;
     log Eff.INFO (ApiCreated reading) ;;
     ret reading)
    is_Exception
    (fun e =>
       match e with
       | HTTPException _ _ => raise e
       | _ =>
           log Eff.ERROR (ApiCreateFailed e) ;;
           raise (HTTPException 500 "Internal server error")
       end).

(** [GET /latest] *)
Definition latest (db : database) : M SensorReading :=
  try_except
    (reading <- get_latest_sensor_reading db ;;
     match reading with
     | None =>
         raise (HTTPException 404
           "No sensor data available. Please ensure the Arduino worker is running and sending data.")
     | Some r =>
         log Eff.DEBUG (ApiLatest (id r)) ;;
         ret r
     end)
    is_Exception
    (fun e =>
       match e with
       | HTTPException _ _ => raise e
       | _ =>
           log Eff.ERROR (ApiLatestFailed e) ;;
           raise (HTTPException 500 "Internal server error")
       end).

(** [period not in ["1day", "1month", "6months"]] *)
Definition unknown_period (period : string) : bool :=
  negb (existsb (String.eqb period) ["1day"; "1month"; "6months"]).

(** [str(e)] of the [ValueError] of [get_history]. *)
Definition invalid_period_text (period : string) : string :=
  "Invalid period: " ++ period ++ ". Use '1day', '1month', or '6months'".

(** [GET /history]; the text of a [ValueError] that does not come from the
    period test is not modelled and written as the empty text. *)
Definition history (db : database) (period : string)
  : M (list HistoryPoint) :=
  reject_if (unknown_period period)
            400 "Invalid period. Use 1day, 1month, or 6months." ;;
  try_except
    (data <- get_history db period ;;
     log Eff.DEBUG (ApiHistory (List.length data) period) ;;
     ret data)
    is_Exception
    (fun e =>
       match e with
       | ValueError =>
           log Eff.ERROR (ApiInvalidPeriod e) ;;
           raise (HTTPException 400
                    (match period_days period with
                     | None => invalid_period_text period
                     | Some _ => ""
                     end))
       | _ =>
           log Eff.ERROR (ApiHistoryFailed e) ;;
           raise (HTTPException 500 "Internal server error")
       end).

(** Events of a call. *)
Definition is_db_close (ev : event) : bool :=
  match ev with DbClose => true | _ => false end.

Definition is_db_open (ev : event) : bool :=
  match ev with DbOpen => true | _ => false end.

Definition is_db_commit (ev : event) : bool :=
  match ev with DbCommit => true | _ => false end.

Definition is_db_rollback (ev : event) : bool :=
  match ev with DbRollback => true | _ => false end.

Definition count (p : event -> bool) (evs : list event) : Z :=
  Z.of_nat (List.length (filter p evs)).

(** A database on which every operation succeeds. *)
Definition healthy (db : database) : Prop :=
  mkdir db = Val tt /\ open db = Val tt
  /\ (forall statement, execute db statement = Val tt)
  /\ commit db = Val tt /\ rollback db = Val tt /\ close db = Val tt.

(** The [finally] clause of the four functions. *)
Definition closing (db : database) : M unit :=
  emit DbClose ;; of_outcome (close db).

(** The three tests of [POST /sensor]. *)
Definition acceptable (data : Eff.SensorReadingCreate) : bool :=
  le (of_int 0) (Eff.ph data) && le (Eff.ph data) (of_int 14)
  && negb (lt (Eff.tds data) (of_int 0))
  && negb (lt (Eff.turbidity data) (of_int 0)).

End Api.

(* ===================================================================== *)
(** * Vocabulary of the statements *)
(* ===================================================================== *)

(** Decimal numerals as a device prints them: an optional sign, digits, and
    optionally a point and digits, with one digit at least. *)
Module Numeral.
Import PyStr PyFloat.

Record numeral : Type := {
  sign : option bool;        (* [Some true] is a minus, [Some false] a plus *)
  int_part : string;
  frac_part : option string  (* the digits after the point, if any *)
}.

Definition sign_text (sg : option bool) : string :=
  match sg with
  | None => ""
  | Some true => "-"
  | Some false => "+"
  end.

Definition frac_digits (x : numeral) : string :=
  match frac_part x with Some f => f | None => "" end.

Definition frac_text (x : numeral) : string :=
  match frac_part x with Some f => String "." f | None => "" end.

Definition body (x : numeral) : string := int_part x ++ frac_text x.

Definition text (x : numeral) : string := sign_text (sign x) ++ body x.

Definition well_formed (x : numeral) : bool :=
  all_digits (int_part x) && all_digits (frac_digits x)
  && negb (is_empty (int_part x) && is_empty (frac_digits x)).

Definition negative (x : numeral) : bool :=
  match sign x with Some true => true | _ => false end.

Definition magnitude (x : numeral) : Z :=
  digits_value 0 (int_part x ++ frac_digits x).

Definition scale (x : numeral) : nat := len (frac_digits x).

(** The number the numeral denotes. *)
Definition value (x : numeral) : Q :=
  (if negative x then - magnitude x else magnitude x)
  # Z.to_pos (10 ^ Z.of_nat (scale x)).

(** The binary64 value nearest to it. *)
Definition to_float (x : numeral) : float :=
  round_decimal (negative x) (magnitude x) (- Z.of_nat (scale x)).

Definition numeral_char (c : ascii) : bool :=
  is_digit c || Ascii.eqb c "." || Ascii.eqb c "+" || Ascii.eqb c "-".

Definition body_char (c : ascii) : bool := is_digit c || Ascii.eqb c ".".

End Numeral.

Module Tokens.
Import PyStr PyFloat Eff Worker.

Definition not_space (c : ascii) : bool := negb (isspace c).
Definition is_not (k c : ascii) : bool := negb (Ascii.eqb c k).

(** A token: not empty, no white space. *)
Definition is_token (w : string) : bool :=
  negb (is_empty w) && all_chars not_space w.

(** Tokens joined by single spaces. *)
Fixpoint join_tokens (ws : list string) : string :=
  match ws with
  | [] => EmptyString
  | [w] => w
  | w :: ws' => w ++ String " " (join_tokens ws')
  end.

(** The line of the expected format, "pH: X TDS: Y Turbidity: Z". *)
Definition sensor_line (X Y Z : string) : string :=
  "pH: " ++ X ++ " TDS: " ++ Y ++ " Turbidity: " ++ Z.

(** The test that opens [parse_sensor_line]. *)
Definition blank (line : string) : bool :=
  is_empty line || (len (strip line) =? 0)%nat.

Definition or_else {A} (a b : option A) : option A :=
  match a with Some _ => a | None => b end.

(** The float written by token [k], colons dropped; nothing when there is
    no such token or it is not a number. *)
Definition token_value (parts : list string) (k : nat) : option float :=
  match nth_error parts k with
  | Some tok => py_float (remove_char ":" tok)
  | None => None
  end.

(** Token [i] holds the keyword. *)
Definition keyword_at (hit : string -> bool) (parts : list string)
           (i : nat) : bool :=
  match nth_error parts i with
  | Some tok => hit (lower tok)
  | None => false
  end.

(** The value the keyword loop takes at token [i]: the float written by
    the next token when token [i] holds the keyword. *)
Definition extraction_at (hit : string -> bool) (parts : list string)
           (i : nat) : option float :=
  if keyword_at hit parts i then token_value parts (i + 1) else None.

(** The index of the last token that holds the keyword. *)
Definition last_keyword_index (hit : string -> bool) (parts : list string)
  : option nat :=
  fold_left (fun last i => if keyword_at hit parts i then Some i else last)
            (seq 0 (List.length parts)) None.

(** One turn of a keyword loop, as a function. *)
Definition scan_step (hit : string -> bool) (parts : list string)
           (value : option float) (p : nat * string) : option float :=
  if hit (lower (snd p)) && (fst p + 1 <? List.length parts)%nat
  then or_else (token_value parts (fst p + 1)) value
  else value.

Definition scan (hit : string -> bool) (parts : list string)
  : option float :=
  fold_left (scan_step hit parts) (enumerate parts) None.

(** The loop variable after the first [n] tokens. *)
Definition scan_upto (hit : string -> bool) (parts : list string) (n : nat)
  : option float :=
  fold_left (fun value i => or_else (extraction_at hit parts i) value)
            (seq 0 n) None.

Definition resolve (hit : string -> bool) (k : nat) (parts : list string)
  : option float :=
  or_else (scan hit parts) (token_value parts k).

Definition resolved_fields (parts : list string)
  : option float * option float * option float :=
  (resolve hit_ph 1 parts, resolve hit_tds 4 parts,
   resolve hit_turbidity 6 parts).

(** Below the lower bound or above the upper one. *)
Definition outside (lo hi : Z) (v : float) : bool :=
  lt v (of_int lo) || lt (of_int hi) v.

Definition inside (lo hi : Z) (v : float) : bool :=
  le (of_int lo) v && le v (of_int hi).

(** The warnings of the two soft ranges. *)
Definition soft_warnings (tds_value turbidity_value : float) : list event :=
  ((if outside 0 10000 tds_value
    then [Log WARNING (TdsOutOfRange tds_value)] else [])
   ++ (if outside 0 100 turbidity_value
       then [Log WARNING (TurbidityOutOfRange turbidity_value)] else []))%list.

(** Events of a delivery. *)
Definition is_post (ev : event) : bool :=
  match ev with Post _ _ _ => true | _ => false end.

Definition is_sleep (ev : event) : bool :=
  match ev with Sleep _ => true | _ => false end.

Definition count_posts (evs : list event) : Z :=
  Z.of_nat (List.length (filter is_post evs)).

Definition count_sleeps (evs : list event) : Z :=
  Z.of_nat (List.length (filter is_sleep evs)).

(** An attempt that does not deliver: a response other than 200, or a
    [RequestException]. *)
Definition failed_attempt (r : post_result) : bool :=
  match r with
  | Response status_code _ => negb (status_code =? 200)
  | PostRaises e => is_RequestException e
  end.

(** A response, or a [RequestException]: nothing else is raised. *)
Definition answers_or_request_exception (r : post_result) : bool :=
  match r with
  | Response _ _ => true
  | PostRaises e => is_RequestException e
  end.

(** An iteration during which the port is gone: [arduino.in_waiting]
    raises [SerialException]. *)
Definition unplugged : iteration_input :=
  {| in_waiting := Exc SerialException;
     readline := Exc SerialException;
     net := fun _ => PostRaises RequestException |}.

(** A collector that answers every attempt with the same response. *)
Definition always_status (status_code : Z) (text : string) : network :=
  fun _ => Response status_code text.

(** A collector that cannot be reached. *)
Definition unreachable : network := fun _ => PostRaises RequestException.

(** An iteration that reads a line the parser accepts and whose delivery
    fails. *)
Definition delivery_fails (w : iteration_input) : Prop :=
  exists n raw d,
    in_waiting w = Val n /\ 0 < n /\ readline w = Val raw
    /\ is_empty (strip raw) = false
    /\ result (parse_sensor_line (strip raw)) = Val (Some d)
    /\ result (send_sensor_data (net w) d MAX_RETRIES) = Val false.

(** An iteration that reads a line that is empty once stripped. *)
Definition reads_blank (w : iteration_input) : Prop :=
  exists n raw,
    in_waiting w = Val n /\ 0 < n /\ readline w = Val raw
    /\ is_empty (strip raw) = true.

(** An iteration with nothing waiting on the port. *)
Definition idle (w : iteration_input) : Prop :=
  exists n, in_waiting w = Val n /\ n <= 0.

Definition state_counter (st : loop_state) : Z :=
  match st with Running c | Exited c => c end.

Definition is_open_event (ev : event) : bool :=
  match ev with SerialOpen _ _ => true | _ => false end.

Definition is_close_event (ev : event) : bool :=
  match ev with SerialClose => true | _ => false end.

Definition count_opens (evs : list event) : Z :=
  Z.of_nat (List.length (filter is_open_event evs)).

Definition count_closes (evs : list event) : Z :=
  Z.of_nat (List.length (filter is_close_event evs)).

(** The line of the expected format written without a space after the
    colons, "pH:X TDS:Y Turbidity:Z". *)
Definition tight_line (X Y Z : string) : string :=
  "pH:" ++ X ++ " TDS:" ++ Y ++ " Turbidity:" ++ Z.

(** The port cannot be opened at any of the first [n] attempts. *)
Definition port_absent (serial_open : Z -> outcome unit) (n : Z) : Prop :=
  forall k, 0 <= k < n -> serial_open k = Exc SerialException.

(** Zero or a finite number: neither nan nor an infinity. *)
Definition is_finite (v : float) : bool :=
  match v with
  | S754_zero _ | S754_finite _ _ _ => true
  | S754_infinity _ | S754_nan => false
  end.

(** The breaker test at the end of an iteration. *)
Definition checked (c : Z) : flow :=
  if max_consecutive_errors <=? c then Break c else Next c.

(** The five error records of a connection given up. *)
Definition five_errors : list event :=
  [Log ERROR (ConnectGaveUp connection_retries);
   Log ERROR (ConnectAdvice 0 PORT); Log ERROR (ConnectAdvice 1 PORT);
   Log ERROR (ConnectAdvice 2 PORT); Log ERROR (ConnectAdvice 3 PORT)].

(** The counter after an iteration that returned. *)
Definition counter_after (m : M flow) : option Z :=
  match result m with
  | Val f => Some (counter_of f)
  | Exc _ => None
  end.

End Tokens.

(** Concrete inputs used to exercise the statements. *)
Module Samples.
Import PyStr PyFloat Eff Worker Numeral Tokens.

Definition numeral_7_2 : numeral :=
  {| sign := None; int_part := "7"; frac_part := Some "2" |}.
Definition numeral_145 : numeral :=
  {| sign := None; int_part := "145"; frac_part := None |}.
Definition numeral_2_3 : numeral :=
  {| sign := None; int_part := "2"; frac_part := Some "3" |}.

(** A reading: pH 7, TDS 1, turbidity 2. *)
Definition reading_7_1_2 : SensorReadingCreate :=
  {| ph := of_int 7; tds := of_int 1; turbidity := of_int 2 |}.

(** Two tokens hold "ph"; the second is followed by a word. *)
Definition line_two_ph : string := "pH: 7 pH: x TDS: 1 Turbidity: 2".

(** An iteration that reads one line, with the collector given. *)
Definition reads (raw : string) (collector : network) : iteration_input :=
  {| in_waiting := Val 1; readline := Val raw; net := collector |}.

End Samples.

Module SrvSamples.
Import PyStr PyFloat Srv.

(** A row, a database on which everything succeeds, and the same database
    with no row to fetch. *)
Definition sample_row : row :=
  {| row_id := 1; row_timestamp := "2024-01-01 00:00:00";
     row_ph := of_int 7; row_tds := of_int 1; row_turbidity := of_int 2 |}.

Definition db_ok : database :=
  {| mkdir := Val tt; open := Val tt; execute := fun _ => Val tt;
     lastrowid := 1; fetchone := Some sample_row; fetchall := [sample_row];
     commit := Val tt; rollback := Val tt; close := Val tt;
     utcnow := 1700000000000000;
     fromisoformat := fun _ => Some 1704067200000000;
     parse_time := fun _ => Some 1704067200000000 |}.

Definition db_empty : database :=
  {| mkdir := Val tt; open := Val tt; execute := fun _ => Val tt;
     lastrowid := 1; fetchone := None; fetchall := [];
     commit := Val tt; rollback := Val tt; close := Val tt;
     utcnow := 1700000000000000;
     fromisoformat := fun _ => Some 1704067200000000;
     parse_time := fun _ => Some 1704067200000000 |}.

End SrvSamples.

(* ===================================================================== *)
(** * Rounding: the bounds a rounded value keeps *)
(* ===================================================================== *)

Module RoundingFacts.
Import PyFloat.

Lemma round_half_even_le N D K :
  0 < D -> N <= K * D -> round_half_even N D <= K.
Proof.
  intros HD HN. unfold round_half_even.
  assert (Hf : N / D <= K).
  { apply Z.div_le_upper_bound; lia. }
  pose proof (Z.mod_pos_bound N D HD) as Hr.
  pose proof (Z.div_mod N D ltac:(lia)) as Hdm.
  destruct (Z.eq_dec (N / D) K) as [Heq | Hne].
  - assert (Hr0 : N mod D = 0) by nia.
    rewrite Hr0. replace (2 * 0 ?= D) with Lt by (symmetry; apply Z.compare_lt_iff; lia).
    lia.
  - destruct (2 * (N mod D) ?= D); [destruct (Z.even (N / D))| |]; lia.
Qed.

Lemma round_half_even_nonneg N D :
  0 < D -> 0 <= N -> 0 <= round_half_even N D.
Proof.
  intros HD HN. unfold round_half_even.
  assert (0 <= N / D) by (apply Z.div_pos; lia).
  destruct (2 * (N mod D) ?= D); [destruct (Z.even (N / D))| |]; lia.
Qed.

Lemma ilog2_lower (n d : positive) :
  0 <= ilog2 n d -> 2 ^ ilog2 n d * Zpos d <= Zpos n.
Proof.
  unfold ilog2.
  pose proof (Z.log2_spec (Zpos n) ltac:(lia)) as [Hn1 Hn2].
  pose proof (Z.log2_spec (Zpos d) ltac:(lia)) as [Hd1 Hd2].
  pose proof (Z.log2_nonneg (Zpos n)) as Ha.
  pose proof (Z.log2_nonneg (Zpos d)) as Hb.
  set (a := Z.log2 (Zpos n)) in *. set (b := Z.log2 (Zpos d)) in *.
  destruct (Z.leb_spec (Zpos d * 2 ^ a) (Zpos n * 2 ^ b)) as [Ht | Ht]; intros Hl.
  - replace a with (b + (a - b)) in Ht by lia.
    rewrite Z.pow_add_r in Ht by lia.
    assert (0 < 2 ^ b) by (apply Z.pow_pos_nonneg; lia).
    nia.
  - replace a with (Z.succ b + (a - b - 1)) in Hn1 by lia.
    rewrite Z.pow_add_r in Hn1 by lia.
    assert (0 < 2 ^ (a - b - 1)) by (apply Z.pow_pos_nonneg; lia).
    nia.
Qed.

Lemma ilog2_upper (n d : positive) t :
  0 <= t -> t <= 52 - ilog2 n d -> Zpos n * 2 ^ t < 2 ^ 53 * Zpos d.
Proof.
  unfold ilog2.
  pose proof (Z.log2_spec (Zpos n) ltac:(lia)) as [Hn1 Hn2].
  pose proof (Z.log2_spec (Zpos d) ltac:(lia)) as [Hd1 Hd2].
  pose proof (Z.log2_nonneg (Zpos n)) as Ha.
  pose proof (Z.log2_nonneg (Zpos d)) as Hb.
  set (a := Z.log2 (Zpos n)) in *. set (b := Z.log2 (Zpos d)) in *.
  destruct (Z.leb_spec (Zpos d * 2 ^ a) (Zpos n * 2 ^ b)) as [Ht | Ht]; intros H0 Hl.
  - assert (Hp : 2 ^ (Z.succ a + t) <= 2 ^ (53 + b)) by (apply Z.pow_le_mono_r; lia).
    rewrite !Z.pow_add_r in Hp by lia.
    assert (0 < 2 ^ t) by (apply Z.pow_pos_nonneg; lia).
    nia.
  - assert (Hp : 2 ^ (a + t) <= 2 ^ (53 + b)) by (apply Z.pow_le_mono_r; lia).
    rewrite !Z.pow_add_r in Hp by lia.
    assert (0 < 2 ^ t) by (apply Z.pow_pos_nonneg; lia).
    assert (0 < 2 ^ b) by (apply Z.pow_pos_nonneg; lia).
    assert (0 < 2 ^ a) by (apply Z.pow_pos_nonneg; lia).
    apply Z.mul_lt_mono_pos_r with (p := 2 ^ b); [lia|].
    nia.
Qed.

Lemma le_pack_finite s m e M E :
  0 <= m -> E <= 971 -> (e < E \/ (e = E /\ m <= Zpos M)) ->
  le (pack s m e) (S754_finite false M E) = true.
Proof.
  intros Hm HE He. unfold pack, le, SFleb, SFcompare.
  destruct m as [| p | p]; [reflexivity | | exfalso; clear He; lia].
  destruct (Z.ltb_spec 971 e); [exfalso; clear Hm; lia |].
  destruct s; [reflexivity |].
  destruct He as [He | [He Hp]].
  - rewrite (proj2 (Z.compare_lt_iff e E) He). reflexivity.
  - subst e. rewrite Z.compare_refl.
    pose proof (Pos.compare_spec p M) as C.
    unfold Pos.compare in C.
    destruct C as [C | C | C]; [reflexivity | reflexivity | exfalso; lia].
Qed.

Lemma of_int_14 : of_int 14 = S754_finite false (Z.to_pos (14 * 2 ^ 49)) (-49).
Proof. vm_compute. reflexivity. Qed.

Lemma round_binary64_le_14 s n d :
  0 <= n -> n <= 14 * Zpos d -> le (round_binary64 s n d) (of_int 14) = true.
Proof.
  intros Hn Hle. rewrite of_int_14.
  assert (P49 : 0 < 2 ^ 49) by (apply Z.pow_pos_nonneg; lia).
  assert (E53 : 2 ^ 53 = 16 * 2 ^ 49) by (vm_compute; reflexivity).
  assert (E52 : 2 ^ 52 = 8 * 2 ^ 49) by (vm_compute; reflexivity).
  assert (EM : Zpos (Z.to_pos (14 * 2 ^ 49)) = 14 * 2 ^ 49) by (apply Z2Pos.id; lia).
  unfold round_binary64.
  destruct n as [| p | p]; [reflexivity | | lia].
  assert (Hl : ilog2 p d <= 3).
  { destruct (Z.le_gt_cases (ilog2 p d) 3) as [|Hgt]; [assumption|].
    pose proof (ilog2_lower p d ltac:(lia)) as Hlow.
    assert (H16 : 2 ^ 4 <= 2 ^ ilog2 p d) by (apply Z.pow_le_mono_r; lia).
    change (2 ^ 4) with 16 in H16. nia. }
  set (e := Z.max (ilog2 p d - 52) (-1074)).
  assert (He : e <= -49) by (subst e; lia).
  assert (He' : ilog2 p d - 52 <= e) by (subst e; lia).
  destruct (Z.leb_spec 0 e) as [|_]; [lia|].
  set (m := round_half_even (Zpos p * 2 ^ (- e)) (Zpos d)).
  assert (Hm0 : 0 <= m).
  { apply round_half_even_nonneg; [lia|].
    assert (0 < 2 ^ (- e)) by (apply Z.pow_pos_nonneg; lia). nia. }
  assert (Hm53 : m <= 2 ^ 53).
  { apply round_half_even_le; [lia|].
    pose proof (ilog2_upper p d (- e) ltac:(lia) ltac:(lia)). lia. }
  destruct (Z.eq_dec e (-49)) as [E49 | N49].
  - assert (Hm : m <= 14 * 2 ^ 49).
    { apply round_half_even_le; [lia|]. rewrite E49.
      change (- -49) with 49.
      rewrite <- Z.mul_assoc, (Z.mul_comm (2 ^ 49)), Z.mul_assoc.
      apply Z.mul_le_mono_nonneg_r; lia. }
    destruct (Z.eqb_spec m (2 ^ 53)) as [E|_]; [exfalso; lia |].
    apply le_pack_finite; [assumption | lia | right; split; [assumption | lia]].
  - destruct (Z.eqb_spec m (2 ^ 53)) as [E|_].
    + apply le_pack_finite; [lia | lia |].
      destruct (Z.eq_dec (e + 1) (-49)); [right; split; [assumption | lia] | left; lia].
    + apply le_pack_finite; [assumption | lia | left; lia].
Qed.

Lemma round_binary64_nonneg n d :
  le (of_int 0) (round_binary64 false n d) = true.
Proof.
  change (of_int 0) with (S754_zero false).
  unfold round_binary64.
  destruct n; try reflexivity.
  match goal with |- context [if ?c then _ else _] => destruct c end;
  unfold pack;
  repeat match goal with |- context [match ?m with _ => _ end] => destruct m; try reflexivity end.
Qed.

End RoundingFacts.


(* ===================================================================== *)
(** * Strings: stripping, splitting, containment *)
(* ===================================================================== *)

Module StrFacts.
Import PyStr Tokens.

Lemma all_chars_impl (P Q : ascii -> bool) s :
  (forall c, P c = true -> Q c = true) ->
  all_chars P s = true -> all_chars Q s = true.
Proof.
  intros HPQ. induction s as [| c s IH]; simpl; [reflexivity |].
  intros H. apply andb_true_iff in H as [Hc Hs].
  rewrite (HPQ c Hc), (IH Hs). reflexivity.
Qed.

Lemma all_chars_app P s t :
  all_chars P (s ++ t) = all_chars P s && all_chars P t.
Proof.
  induction s as [| c s IH]; simpl; [reflexivity |].
  rewrite IH, andb_assoc. reflexivity.
Qed.

Lemma lstrip_token c s : isspace c = false -> lstrip (String c s) = String c s.
Proof. intros H. simpl. rewrite H. reflexivity. Qed.

Lemma rstrip_no_space s : all_chars not_space s = true -> rstrip s = s.
Proof.
  induction s as [| c s IH]; simpl; [reflexivity |].
  intros H. apply andb_true_iff in H as [Hc Hs].
  rewrite (IH Hs). unfold not_space in Hc. apply negb_true_iff in Hc.
  rewrite Hc. destruct s; reflexivity.
Qed.

Lemma rstrip_head c s : isspace c = false -> rstrip (String c s) <> EmptyString.
Proof.
  intros H. simpl. destruct (rstrip s); [rewrite H |]; discriminate.
Qed.

Lemma strip_no_space s : all_chars not_space s = true -> strip s = s.
Proof.
  intros H. unfold strip.
  destruct s as [| c s]; [reflexivity |].
  pose proof H as H'. simpl in H'. apply andb_true_iff in H' as [Hc _].
  unfold not_space in Hc. apply negb_true_iff in Hc.
  rewrite (lstrip_token _ _ Hc). apply rstrip_no_space, H.
Qed.

Lemma strip_head_nonempty c s :
  isspace c = false -> strip (String c s) <> EmptyString.
Proof.
  intros H. unfold strip. rewrite (lstrip_token _ _ H). apply rstrip_head, H.
Qed.

Lemma split_from_token w s :
  all_chars not_space w = true ->
  split_from (w ++ s) = (w ++ fst (split_from s), snd (split_from s)).
Proof.
  induction w as [| c w IH]; simpl; intros H.
  - destruct (split_from s); reflexivity.
  - apply andb_true_iff in H as [Hc Hw]. rewrite (IH Hw).
    unfold not_space in Hc. apply negb_true_iff in Hc. rewrite Hc. reflexivity.
Qed.

Lemma split_from_space s :
  split_from (String " " s) = (EmptyString, split s).
Proof. simpl. unfold split. destruct (split_from s). reflexivity. Qed.

Lemma push_token_nonempty w rest :
  is_empty w = false -> push_token w rest = w :: rest.
Proof. destruct w; [discriminate | reflexivity]. Qed.

Lemma app_empty_r s : s ++ "" = s.
Proof. induction s; simpl; congruence. Qed.

Lemma split_join_tokens ws :
  forallb is_token ws = true -> split (join_tokens ws) = ws.
Proof.
  induction ws as [| w ws IH]; [reflexivity |].
  intros H. simpl in H. apply andb_true_iff in H as [Hw Hws].
  unfold is_token in Hw. apply andb_true_iff in Hw as [Hne Hns].
  apply negb_true_iff in Hne.
  destruct ws as [| w' ws'].
  - simpl. unfold split.
    rewrite <- (app_empty_r w) at 1. rewrite (split_from_token _ _ Hns).
    simpl. rewrite app_empty_r. apply push_token_nonempty, Hne.
  - change (join_tokens (w :: w' :: ws')) with (w ++ String " " (join_tokens (w' :: ws'))).
    unfold split. rewrite (split_from_token _ _ Hns), split_from_space.
    cbn [fst snd]. rewrite (IH Hws). change (w ++ "") with (w ++ EmptyString). rewrite app_empty_r.
    apply push_token_nonempty, Hne.
Qed.

Lemma prefix_cons k kw c s :
  prefix (String k kw) (String c s) = true -> c = k.
Proof.
  simpl. destruct (ascii_dec k c); [congruence | discriminate].
Qed.

Lemma contains_absent k kw s :
  all_chars (is_not k) s = true -> contains (String k kw) s = false.
Proof.
  induction s as [| c s IH]; [reflexivity |].
  intros H. simpl in H. apply andb_true_iff in H as [Hc Hs].
  change (contains (String k kw) (String c s))
    with (prefix (String k kw) (String c s) || contains (String k kw) s).
  rewrite (IH Hs), orb_false_r.
  destruct (prefix (String k kw) (String c s)) eqn:E; [| reflexivity].
  apply prefix_cons in E. subst c. unfold is_not in Hc.
  rewrite Ascii.eqb_refl in Hc. discriminate.
Qed.

Lemma remove_char_absent k s :
  all_chars (is_not k) s = true -> remove_char k s = s.
Proof.
  induction s as [| c s IH]; [reflexivity |].
  intros H. simpl in H. apply andb_true_iff in H as [Hc Hs].
  simpl. unfold is_not in Hc. apply negb_true_iff in Hc.
  rewrite Hc, (IH Hs). reflexivity.
Qed.

Lemma lower_fixed s :
  all_chars (fun c => Ascii.eqb (lower_char c) c) s = true -> lower s = s.
Proof.
  induction s as [| c s IH]; [reflexivity |].
  intros H. simpl in H. apply andb_true_iff in H as [Hc Hs].
  simpl. apply Ascii.eqb_eq in Hc. rewrite Hc, (IH Hs). reflexivity.
Qed.

End StrFacts.

(* ===================================================================== *)
(** * [float] on decimal numerals *)
(* ===================================================================== *)

Module NumeralFacts.
Import PyStr PyFloat Tokens Numeral StrFacts RoundingFacts.

Ltac by_cases_on_char c :=
  destruct c as [[] [] [] [] [] [] [] []]; try discriminate; try reflexivity.

Lemma numeral_char_not_space c : numeral_char c = true -> not_space c = true.
Proof. by_cases_on_char c. Qed.

Lemma numeral_char_lower c :
  numeral_char c = true -> Ascii.eqb (lower_char c) c = true.
Proof. by_cases_on_char c. Qed.

Lemma numeral_char_is_not k c :
  numeral_char k = false -> numeral_char c = true -> is_not k c = true.
Proof.
  intros Hk Hc. unfold is_not. apply negb_true_iff. apply Ascii.eqb_neq.
  intros ->. congruence.
Qed.

Lemma digit_numeral_char c : is_digit c = true -> numeral_char c = true.
Proof. intros H. unfold numeral_char. rewrite H. reflexivity. Qed.

Lemma text_numeral_chars x :
  well_formed x = true -> all_chars numeral_char (text x) = true.
Proof.
  unfold well_formed, text, body, all_digits. intros H.
  apply andb_true_iff in H as [H _]. apply andb_true_iff in H as [Hi Hf].
  rewrite !all_chars_app.
  rewrite (all_chars_impl _ _ _ digit_numeral_char Hi).
  assert (Hs : all_chars numeral_char (sign_text (sign x)) = true)
    by (destruct (sign x) as [[] |]; reflexivity).
  rewrite Hs. unfold frac_text, frac_digits in *.
  destruct (frac_part x); [| reflexivity].
  simpl. rewrite (all_chars_impl _ _ _ digit_numeral_char Hf). reflexivity.
Qed.

Lemma text_nonempty x : well_formed x = true -> is_empty (text x) = false.
Proof.
  unfold well_formed, text, body, frac_text, frac_digits. intros H.
  apply andb_true_iff in H as [_ H]. apply negb_true_iff in H.
  destruct (sign x) as [[] |]; try reflexivity.
  destruct (int_part x); [| reflexivity].
  destruct (frac_part x); [reflexivity | discriminate].
Qed.

Lemma digits_value_nonneg s acc :
  all_digits s = true -> 0 <= acc -> 0 <= digits_value acc s.
Proof.
  unfold all_digits. revert acc.
  induction s as [| c s IH]; cbn [digits_value all_chars]; intros acc H Hacc;
    [assumption |].
  apply andb_true_iff in H as [Hc Hs]. apply IH; [assumption |].
  assert (0 <= digit_val c)
    by (revert Hc; by_cases_on_char c; intros; cbv; discriminate).
  lia.
Qed.

Lemma span_digits_app ds r :
  all_digits ds = true ->
  match r with String c _ => is_digit c = false | EmptyString => True end ->
  span_digits (ds ++ r) = (ds, r).
Proof.
  unfold all_digits. intros Hd Hr.
  induction ds as [| c ds IH]; cbn [append span_digits all_chars] in *.
  - destruct r as [| c r]; [reflexivity |].
    cbn [span_digits]. rewrite Hr. reflexivity.
  - apply andb_true_iff in Hd as [Hc Hds].
    rewrite Hc, (IH Hds). reflexivity.
Qed.

Lemma underscores_ok_absent s prev :
  all_chars (is_not "_") s = true -> underscores_ok prev s = true.
Proof.
  revert prev. induction s as [| c s IH]; intros prev H; [reflexivity |].
  simpl in H. apply andb_true_iff in H as [Hc Hs].
  revert Hc. by_cases_on_char c; intros _; simpl; apply IH, Hs.
Qed.

Lemma body_head x :
  well_formed x = true ->
  exists c r, body x = String c r /\ body_char c = true.
Proof.
  unfold well_formed, body, frac_text, frac_digits, all_digits. intros H.
  apply andb_true_iff in H as [H Hne]. apply andb_true_iff in H as [Hi Hf].
  apply negb_true_iff in Hne.
  destruct (int_part x) as [| c r].
  - destruct (frac_part x) as [f |]; [| discriminate].
    exists "."%char, f. split; reflexivity.
  - cbn [all_chars] in Hi. apply andb_true_iff in Hi as [Hc _].
    eexists _, _. split; [reflexivity |]. unfold body_char. rewrite Hc. reflexivity.
Qed.

Lemma take_sign_body c r :
  body_char c = true -> take_sign (String c r) = (false, String c r).
Proof. by_cases_on_char c. Qed.

Lemma take_sign_text x :
  well_formed x = true -> take_sign (text x) = (negative x, body x).
Proof.
  intros H. destruct (body_head x H) as (c & r & Hb & Hc).
  unfold text, negative.
  destruct (sign x) as [[] |]; try reflexivity.
  cbn [sign_text append]. rewrite Hb. apply take_sign_body, Hc.
Qed.

Lemma body_not_keyword c r :
  body_char c = true ->
  (String.eqb (String c r) "inf" || String.eqb (String c r) "infinity") = false
  /\ String.eqb (String c r) "nan" = false.
Proof.
  intros H. cbn [String.eqb].
  revert H. by_cases_on_char c; intros _; split; reflexivity.
Qed.

Lemma body_numeral_chars x :
  well_formed x = true -> all_chars numeral_char (body x) = true.
Proof.
  intros H. pose proof (text_numeral_chars x H) as Ht.
  unfold text in Ht.
  rewrite all_chars_app in Ht. apply andb_true_iff in Ht as [_ Ht]. exact Ht.
Qed.

Lemma parse_number_body x :
  well_formed x = true ->
  parse_number (negative x) (body x) = Some (to_float x).
Proof.
  intros H. pose proof H as H'.
  unfold well_formed in H'.
  apply andb_true_iff in H' as [H' Hne]. apply andb_true_iff in H' as [Hi Hf].
  apply negb_true_iff in Hne.
  unfold parse_number, body, to_float, magnitude, scale.
  rewrite (span_digits_app _ _ Hi)
    by (unfold frac_text; destruct (frac_part x); [reflexivity | exact I]).
  unfold frac_text, frac_digits in *.
  destruct (frac_part x) as [f |].
  - assert (Ef : span_digits f = (f, ""))
      by (rewrite <- (app_empty_r f) at 1; exact (span_digits_app f "" Hf I)).
    rewrite Ef, Hne.
    cbn [parse_exponent]. rewrite Z.sub_0_l. reflexivity.
  - rewrite Hne. reflexivity.
Qed.

Lemma py_float_text x :
  well_formed x = true -> py_float (text x) = Some (to_float x).
Proof.
  intros H. unfold py_float.
  pose proof (text_numeral_chars x H) as Ht.
  pose proof (body_numeral_chars x H) as Hb.
  rewrite (strip_no_space _ (all_chars_impl _ _ _ numeral_char_not_space Ht)).
  rewrite (take_sign_text x H).
  rewrite (lower_fixed _ (all_chars_impl _ _ _ numeral_char_lower Hb)).
  destruct (body_head x H) as (c & r & Hbe & Hc).
  destruct (body_not_keyword c r Hc) as [K1 K2].
  rewrite <- Hbe in K1, K2. rewrite K1, K2.
  rewrite (underscores_ok_absent _ _
             (all_chars_impl _ _ _ (fun c => numeral_char_is_not "_" c eq_refl) Ht)).
  rewrite (remove_char_absent _ _
             (all_chars_impl _ _ _ (fun c => numeral_char_is_not "_" c eq_refl) Hb)).
  apply parse_number_body, H.
Qed.

Lemma value_bounds_float x :
  well_formed x = true ->
  (0 <= value x)%Q -> (value x <= 14)%Q ->
  le (of_int 0) (to_float x) = true /\ le (to_float x) (of_int 14) = true.
Proof.
  intros H H0 H14. pose proof H as H'.
  unfold well_formed in H'.
  apply andb_true_iff in H' as [H' _]. apply andb_true_iff in H' as [Hi Hf].
  assert (Hm : 0 <= magnitude x).
  { unfold magnitude. apply digits_value_nonneg; [| lia].
    unfold all_digits in *. rewrite all_chars_app, Hi, Hf. reflexivity. }
  assert (Hp : 0 < 10 ^ Z.of_nat (scale x)) by (apply Z.pow_pos_nonneg; lia).
  unfold Qle, value in H0, H14. cbn [Qnum Qden] in H0, H14.
  rewrite Z2Pos.id in H14 by assumption.
  unfold to_float, round_decimal.
  destruct (negative x).
  - assert (E : magnitude x = 0) by lia. rewrite E.
    destruct (0 <=? - Z.of_nat (scale x)); split; reflexivity.
  - destruct (Z.leb_spec 0 (- Z.of_nat (scale x))) as [Hs | Hs].
    + assert (Es : Z.of_nat (scale x) = 0) by lia. rewrite Es in *.
      change (- 0) with 0. change (10 ^ 0) with 1 in *.
      split; [apply round_binary64_nonneg |].
      apply round_binary64_le_14; lia.
    + rewrite Z.opp_involutive.
      split; [apply round_binary64_nonneg |].
      apply round_binary64_le_14; [assumption |].
      rewrite Z2Pos.id by assumption. lia.
Qed.

End NumeralFacts.

(* ===================================================================== *)
(** * The monad *)
(* ===================================================================== *)

Module EffFacts.
Import Eff.

Lemma bind_ret_l {A B} (a : A) (k : A -> M B) : bind (ret a) k = k a.
Proof. unfold bind, ret. destruct (k a). reflexivity. Qed.

Lemma result_bind {A B} (m : M A) (k : A -> M B) :
  result (bind m k) =
  match result m with
  | Val a => result (k a)
  | Exc e => Exc e
  end.
Proof.
  destruct m as [[a | e] w]; unfold bind, result; cbn [fst];
    [destruct (k a) |]; reflexivity.
Qed.

Lemma events_bind {A B} (m : M A) (k : A -> M B) :
  events (bind m k) =
  match result m with
  | Val a => (events m ++ events (k a))%list
  | Exc _ => events m
  end.
Proof.
  destruct m as [[a | e] w]; unfold bind, result, events; cbn [fst snd];
    [destruct (k a) |]; reflexivity.
Qed.

Lemma result_try_except {A} (m : M A) catches (h : exn -> M A) :
  result (try_except m catches h) =
  match result m with
  | Val a => Val a
  | Exc e => if catches e then result (h e) else Exc e
  end.
Proof.
  destruct m as [[a | e] w]; unfold try_except, result; cbn [fst];
    [reflexivity |].
  destruct (catches e); [destruct (h e) |]; reflexivity.
Qed.

Lemma try_except_val {A} (m : M A) catches (h : exn -> M A) a :
  result m = Val a -> try_except m catches h = m.
Proof.
  destruct m as [[a' | e] w]; unfold result; cbn [fst]; intros H;
    [reflexivity | discriminate].
Qed.

Lemma surjective_M {A} (m : M A) : m = (result m, events m).
Proof. destruct m. reflexivity. Qed.

Lemma for_each_ret {A S} (f : S -> A -> S) (body : S -> A -> M S) xs s :
  (forall s x, body s x = ret (f s x)) ->
  for_each xs body s = ret (fold_left f xs s).
Proof.
  intros Hb. revert s. induction xs as [| x xs IH]; intros s; [reflexivity |].
  cbn [for_each fold_left]. rewrite Hb, bind_ret_l. apply IH.
Qed.

End EffFacts.

(* ===================================================================== *)
(** * The parser as a function of the tokens *)
(* ===================================================================== *)

Module ParserFacts.
Import PyStr PyFloat Eff Worker Tokens StrFacts EffFacts.

Lemma try_float_at_ret current parts k :
  try_float_at current parts k = ret (or_else (token_value parts k) current).
Proof.
  unfold try_float_at, float_at, token_value.
  destruct (nth_error parts k) as [tok |]; [| reflexivity].
  destruct (py_float (remove_char ":" tok)); reflexivity.
Qed.

Lemma keyword_loop_ret hit parts :
  keyword_loop hit parts = ret (scan hit parts).
Proof.
  unfold keyword_loop, scan. apply for_each_ret.
  intros value [i part]. unfold scan_step. cbn [fst snd].
  destruct (hit (lower part) && (i + 1 <? List.length parts)%nat);
    [apply try_float_at_ret | reflexivity].
Qed.

Lemma token_value_out parts k :
  (List.length parts <= k)%nat -> token_value parts k = None.
Proof.
  intros H. unfold token_value.
  rewrite (proj2 (nth_error_None parts k) H). reflexivity.
Qed.

Lemma fallback_ret value parts k :
  fallback value parts k = ret (or_else value (token_value parts k)).
Proof.
  unfold fallback. destruct value as [v |]; [reflexivity |].
  destruct (Nat.ltb_spec k (List.length parts)) as [Hk | Hk].
  - rewrite try_float_at_ret. cbn [or_else].
    destruct (token_value parts k); reflexivity.
  - rewrite (token_value_out _ _ Hk). reflexivity.
Qed.

Lemma extract_fields_ret parts :
  extract_fields parts = ret (resolved_fields parts).
Proof.
  unfold extract_fields, resolved_fields, resolve.
  rewrite !keyword_loop_ret, !bind_ret_l.
  rewrite !fallback_ret, !bind_ret_l. reflexivity.
Qed.

Lemma validate_val line fields :
  exists r, result (validate line fields) = Val r.
Proof.
  destruct fields as [[[p |] [t |]] [u |]]; unfold validate;
    try (eexists; reflexivity).
  destruct (negb _); [eexists; reflexivity |].
  destruct (_ || _); destruct (_ || _); eexists; reflexivity.
Qed.

Lemma parse_body_eq line :
  parse_body line = validate line (resolved_fields (split line)).
Proof.
  unfold parse_body. rewrite extract_fields_ret, bind_ret_l. reflexivity.
Qed.

Lemma parse_sensor_line_blank line :
  blank line = true -> parse_sensor_line line = ret None.
Proof.
  intros Hb. unfold parse_sensor_line. fold (blank line). rewrite Hb.
  reflexivity.
Qed.

Lemma parse_sensor_line_eq line :
  blank line = false ->
  parse_sensor_line line = validate line (resolved_fields (split line)).
Proof.
  intros Hb. unfold parse_sensor_line. fold (blank line). rewrite Hb.
  rewrite parse_body_eq.
  destruct (validate_val line (resolved_fields (split line))) as [r Hr].
  apply (try_except_val _ _ _ r Hr).
Qed.

(** ** The keyword loop: the last extraction stays *)

Section Scan.
Variable hit : string -> bool.
Variable parts : list string.

Lemma scan_upto_S n :
  scan_upto hit parts (S n) =
  or_else (extraction_at hit parts n) (scan_upto hit parts n).
Proof.
  unfold scan_upto. rewrite seq_S, fold_left_app. reflexivity.
Qed.

Lemma scan_step_at value i part :
  nth_error parts i = Some part ->
  scan_step hit parts value (i, part) =
  or_else (extraction_at hit parts i) value.
Proof.
  intros Hi. unfold scan_step, extraction_at, keyword_at. cbn [fst snd].
  rewrite Hi.
  destruct (hit (lower part)); [| reflexivity].
  destruct (Nat.ltb_spec (i + 1) (List.length parts)) as [Hk | Hk];
    [reflexivity |].
  rewrite (token_value_out _ _ Hk). reflexivity.
Qed.

Lemma fold_scan_step k xs value :
  (forall j x, nth_error xs j = Some x -> nth_error parts (k + j) = Some x) ->
  fold_left (scan_step hit parts) (combine (seq k (List.length xs)) xs) value =
  fold_left (fun value i => or_else (extraction_at hit parts i) value)
            (seq k (List.length xs)) value.
Proof.
  revert k value. induction xs as [| x xs IH]; intros k value Hx;
    [reflexivity |].
  cbn [List.length seq combine fold_left].
  rewrite (scan_step_at value k x)
    by (rewrite <- (Nat.add_0_r k); apply Hx; reflexivity).
  apply IH. intros j y Hj.
  replace (S k + j)%nat with (k + S j)%nat by lia. apply Hx. exact Hj.
Qed.

Lemma scan_eq_upto : scan hit parts = scan_upto hit parts (List.length parts).
Proof.
  unfold scan, scan_upto, enumerate. apply fold_scan_step.
  intros j x Hj. exact Hj.
Qed.

Lemma scan_upto_last n i x :
  (i < n)%nat ->
  extraction_at hit parts i = Some x ->
  (forall j, (i < j)%nat -> extraction_at hit parts j = None) ->
  scan_upto hit parts n = Some x.
Proof.
  intros Hin Hi Hlater. induction n as [| n IH]; [lia |].
  rewrite scan_upto_S.
  destruct (Nat.eq_dec i n) as [-> | Hne].
  - rewrite Hi. reflexivity.
  - rewrite (Hlater n) by lia. cbn [or_else]. apply IH. lia.
Qed.

Lemma scan_upto_none n :
  (forall j, (j < n)%nat -> extraction_at hit parts j = None) ->
  scan_upto hit parts n = None.
Proof.
  intros H. induction n as [| n IH]; [reflexivity |].
  rewrite scan_upto_S, (H n) by lia. cbn [or_else]. apply IH.
  intros j Hj. apply H. lia.
Qed.

Lemma extraction_at_in_range i x :
  extraction_at hit parts i = Some x -> (i < List.length parts)%nat.
Proof.
  unfold extraction_at, keyword_at. intros H. apply nth_error_Some.
  destruct (nth_error parts i); discriminate.
Qed.

Lemma scan_last_hit i x :
  extraction_at hit parts i = Some x ->
  (forall j, (i < j)%nat -> extraction_at hit parts j = None) ->
  scan hit parts = Some x.
Proof.
  intros Hi Hlater. rewrite scan_eq_upto.
  apply (scan_upto_last _ i x); try assumption.
  eapply extraction_at_in_range, Hi.
Qed.

Lemma scan_no_hit :
  (forall j, extraction_at hit parts j = None) -> scan hit parts = None.
Proof.
  intros H. rewrite scan_eq_upto. apply scan_upto_none. intros j _. apply H.
Qed.

End Scan.

End ParserFacts.

(* ===================================================================== *)
(** * Lines of the expected format *)
(* ===================================================================== *)

Module FormatFacts.
Import PyStr PyFloat Eff Worker Tokens Numeral.
Import StrFacts NumeralFacts EffFacts ParserFacts.

Lemma numeral_is_token x : well_formed x = true -> is_token (text x) = true.
Proof.
  intros H. unfold is_token. rewrite (text_nonempty x H).
  exact (all_chars_impl _ _ _ numeral_char_not_space (text_numeral_chars x H)).
Qed.

Lemma numeral_no_keyword x :
  well_formed x = true ->
  hit_ph (lower (text x)) = false
  /\ hit_tds (lower (text x)) = false
  /\ hit_turbidity (lower (text x)) = false.
Proof.
  intros H. pose proof (text_numeral_chars x H) as Ht.
  rewrite (lower_fixed _ (all_chars_impl _ _ _ numeral_char_lower Ht)).
  unfold hit_ph, hit_tds, hit_turbidity.
  rewrite !(contains_absent "p")
    by exact (all_chars_impl _ _ _
                (fun c => numeral_char_is_not "p" c eq_refl) Ht).
  rewrite !(contains_absent "t")
    by exact (all_chars_impl _ _ _
                (fun c => numeral_char_is_not "t" c eq_refl) Ht).
  repeat split; reflexivity.
Qed.

Lemma numeral_token_value x :
  well_formed x = true ->
  py_float (remove_char ":" (text x)) = Some (to_float x).
Proof.
  intros H. pose proof (text_numeral_chars x H) as Ht.
  rewrite (remove_char_absent ":")
    by exact (all_chars_impl _ _ _
                (fun c => numeral_char_is_not ":" c eq_refl) Ht).
  apply py_float_text, H.
Qed.

Lemma sensor_line_split X Y Z :
  is_token X = true -> is_token Y = true -> is_token Z = true ->
  split (sensor_line X Y Z) = ["pH:"; X; "TDS:"; Y; "Turbidity:"; Z].
Proof.
  intros HX HY HZ.
  change (sensor_line X Y Z)
    with (join_tokens ["pH:"; X; "TDS:"; Y; "Turbidity:"; Z]).
  apply split_join_tokens. cbn [forallb]. rewrite HX, HY, HZ. reflexivity.
Qed.

Lemma sensor_line_not_blank X Y Z : blank (sensor_line X Y Z) = false.
Proof.
  unfold blank. cbn [sensor_line append is_empty orb].
  apply Nat.eqb_neq. intros E.
  apply (strip_head_nonempty "p" (String "H" (String ":" (String " "
           (X ++ " TDS: " ++ Y ++ " Turbidity: " ++ Z)))) eq_refl).
  unfold len in E. destruct (strip _); [reflexivity | discriminate].
Qed.

Lemma sensor_line_fields x y z :
  well_formed x = true -> well_formed y = true -> well_formed z = true ->
  resolved_fields ["pH:"; text x; "TDS:"; text y; "Turbidity:"; text z] =
  (Some (to_float x), Some (to_float y), Some (to_float z)).
Proof.
  intros Hx Hy Hz.
  destruct (numeral_no_keyword x Hx) as (Px & Tx & Ux).
  destruct (numeral_no_keyword y Hy) as (Py & Ty & Uy).
  destruct (numeral_no_keyword z Hz) as (Pz & Tz & Uz).
  pose proof (numeral_token_value x Hx) as Vx.
  pose proof (numeral_token_value y Hy) as Vy.
  pose proof (numeral_token_value z Hz) as Vz.
  set (parts := ["pH:"; text x; "TDS:"; text y; "Turbidity:"; text z]).
  assert (Sp : scan hit_ph parts = Some (to_float x)).
  { apply (scan_last_hit hit_ph parts 0).
    - unfold extraction_at, keyword_at, token_value. cbn. exact Vx.
    - intros j Hj. unfold extraction_at, keyword_at.
      destruct j as [| [| [| [| [| [| j]]]]]]; try lia;
        cbn [nth_error parts]; rewrite ?Px, ?Py, ?Pz; try reflexivity.
      destruct j; reflexivity. }
  assert (St : scan hit_tds parts = Some (to_float y)).
  { apply (scan_last_hit hit_tds parts 2).
    - unfold extraction_at, keyword_at, token_value. cbn. exact Vy.
    - intros j Hj. unfold extraction_at, keyword_at.
      destruct j as [| [| [| [| [| [| j]]]]]]; try lia;
        cbn [nth_error parts]; rewrite ?Tx, ?Ty, ?Tz; try reflexivity.
      destruct j; reflexivity. }
  assert (Su : scan hit_turbidity parts = Some (to_float z)).
  { apply (scan_last_hit hit_turbidity parts 4).
    - unfold extraction_at, keyword_at, token_value. cbn. exact Vz.
    - intros j Hj. unfold extraction_at, keyword_at.
      destruct j as [| [| [| [| [| [| j]]]]]]; try lia;
        cbn [nth_error parts]; rewrite ?Ux, ?Uy, ?Uz; try reflexivity.
      destruct j; reflexivity. }
  unfold resolved_fields, resolve. rewrite Sp, St, Su. reflexivity.
Qed.

End FormatFacts.


(* ===================================================================== *)
(** * Comparisons, blank lines, containment *)
(* ===================================================================== *)

Module ValidateFacts.
Import PyStr PyFloat Eff Worker Tokens.
Import StrFacts EffFacts ParserFacts.

Lemma SFcompare_antisym x y :
  SFcompare y x = option_map CompOpp (SFcompare x y).
Proof.
  destruct x as [sx | sx | | sx mx ex]; destruct y as [sy | sy | | sy my ey];
    try (destruct sx; reflexivity); try (destruct sy; reflexivity);
    try (destruct sx, sy; reflexivity); try reflexivity.
  assert (Hm : Pos.compare_cont Eq my mx = CompOpp (Pos.compare_cont Eq mx my))
    by (symmetry; apply (Pos.compare_cont_antisym mx my Eq)).
  unfold SFcompare, option_map.
  destruct sx, sy; try reflexivity;
    rewrite (Z.compare_antisym ex ey), Hm;
    destruct (ex ?= ey); cbn [CompOpp]; try reflexivity.
Qed.

Lemma lt_not_le x y : lt x y = true -> le y x = false.
Proof.
  unfold lt, le, SFltb, SFleb. rewrite (SFcompare_antisym x y).
  destruct (SFcompare x y) as [[] |]; try discriminate. reflexivity.
Qed.

Lemma outside_not_inside lo hi v :
  outside lo hi v = true -> inside lo hi v = false.
Proof.
  unfold outside, inside. intros H. apply orb_true_iff in H as [H | H].
  - rewrite (lt_not_le _ _ H). reflexivity.
  - rewrite (lt_not_le _ _ H). apply andb_false_r.
Qed.

Lemma rstrip_empty s : rstrip s = "" -> all_chars isspace s = true.
Proof.
  induction s as [| c s IH]; [reflexivity |].
  cbn [rstrip all_chars].
  destruct (rstrip s); [| discriminate].
  destruct (isspace c); [intros _; rewrite IH; reflexivity | discriminate].
Qed.

Lemma lstrip_spaces s :
  all_chars isspace (lstrip s) = true -> all_chars isspace s = true.
Proof.
  induction s as [| c s IH]; [reflexivity |].
  cbn [lstrip]. destruct (isspace c) eqn:E.
  - intros H. cbn [all_chars]. rewrite E, (IH H). reflexivity.
  - intros H. exact H.
Qed.

Lemma all_spaces_strip s : all_chars isspace s = true -> strip s = "".
Proof.
  unfold strip. induction s as [| c s IH]; [reflexivity |].
  cbn [all_chars lstrip]. intros H. apply andb_true_iff in H as [Hc Hs].
  rewrite Hc. apply IH, Hs.
Qed.

Lemma all_spaces_split s : all_chars isspace s = true -> split s = [].
Proof.
  intros H. unfold split.
  assert (E : split_from s = ("", [])).
  { induction s as [| c s IH]; [reflexivity |].
    cbn [all_chars] in H. apply andb_true_iff in H as [Hc Hs].
    cbn [split_from]. rewrite (IH Hs), Hc. reflexivity. }
  rewrite E. reflexivity.
Qed.

Lemma blank_iff_spaces line :
  blank line = true <-> all_chars isspace line = true.
Proof.
  unfold blank. split.
  - intros H. apply orb_true_iff in H as [H | H].
    + destruct line; [reflexivity | discriminate].
    + apply lstrip_spaces, rstrip_empty. fold (strip line).
      apply Nat.eqb_eq in H. unfold len in H.
      destruct (strip line); [reflexivity | discriminate].
  - intros H. rewrite (all_spaces_strip _ H). apply orb_true_r.
Qed.

Lemma blank_split line : blank line = true -> split line = [].
Proof. intros H. apply all_spaces_split, blank_iff_spaces, H. Qed.

Lemma resolved_fields_nil : resolved_fields [] = (None, None, None).
Proof. reflexivity. Qed.

Lemma resolved_not_blank line p :
  fst (fst (resolved_fields (split line))) = Some p -> blank line = false.
Proof.
  intros H. destruct (blank line) eqn:E; [| reflexivity].
  rewrite (blank_split _ E) in H. discriminate.
Qed.

Lemma contains_unfold kw s :
  contains kw s =
  prefix kw s || match s with
                 | EmptyString => false
                 | String _ s' => contains kw s'
                 end.
Proof. destruct s; reflexivity. Qed.

Lemma prefix_app kw b : prefix kw (kw ++ b) = true.
Proof.
  induction kw as [| c kw IH]; cbn [append prefix]; [destruct b; reflexivity |].
  destruct (ascii_dec c c); [exact IH | congruence].
Qed.

Lemma contains_app kw a b : contains kw (a ++ kw ++ b) = true.
Proof.
  induction a as [| c a IH]; rewrite contains_unfold.
  - cbn [append]. rewrite prefix_app. reflexivity.
  - cbn [append]. rewrite IH. apply orb_true_r.
Qed.

Lemma prefix_inv kw s : prefix kw s = true -> exists b, s = kw ++ b.
Proof.
  revert s. induction kw as [| c kw IH]; intros s H.
  - exists s. reflexivity.
  - destruct s as [| c' s]; [discriminate |]. cbn [prefix] in H.
    destruct (ascii_dec c c') as [-> | _]; [| discriminate].
    destruct (IH s H) as (b & ->). exists b. reflexivity.
Qed.

Lemma contains_inv kw s :
  contains kw s = true -> exists a b, s = a ++ kw ++ b.
Proof.
  induction s as [| c s IH]; rewrite contains_unfold; intros H;
    apply orb_true_iff in H as [H | H].
  - apply prefix_inv in H as (b & ->). exists "", b. reflexivity.
  - discriminate.
  - apply prefix_inv in H as (b & ->). exists "", b. reflexivity.
  - destruct (IH H) as (a & b & ->). exists (String c a), b. reflexivity.
Qed.

End ValidateFacts.

(* ===================================================================== *)
(** * The delivery client *)
(* ===================================================================== *)

Module SendFacts.
Import PyStr PyFloat Eff Worker Tokens.
Import EffFacts.

Section Send.
Variable net : network.
Variable data : SensorReadingCreate.
Variable retries : Z.

Lemma send_attempt_accepted attempt text :
  net attempt = Response 200 text ->
  send_attempt net data retries attempt =
  (Val (Some true), [Post API_URL data 5; Log DEBUG (SentOk data)]).
Proof.
  intros H. unfold send_attempt, requests_post. rewrite H. reflexivity.
Qed.

Lemma send_attempt_rejected attempt status_code text :
  net attempt = Response status_code text -> status_code <> 200 ->
  send_attempt net data retries attempt =
  (Val None,
   [Post API_URL data 5; Log WARNING (ApiStatus status_code text)]).
Proof.
  intros H Hs. unfold send_attempt, requests_post. rewrite H.
  cbn. rewrite (proj2 (Z.eqb_neq status_code 200) Hs). reflexivity.
Qed.

Lemma send_attempt_request_exception attempt :
  net attempt = PostRaises RequestException ->
  send_attempt net data retries attempt =
  (Val None,
   [Post API_URL data 5;
    Log WARNING (AttemptFailed (attempt + 1) retries RequestException)]
   ++ (if attempt <? retries - 1 then [Sleep RETRY_DELAY] else []))%list.
Proof.
  intros H. unfold send_attempt, requests_post. rewrite H.
  cbn. destruct (attempt <? retries - 1); reflexivity.
Qed.

Lemma send_attempt_other attempt e :
  net attempt = PostRaises e -> is_RequestException e = false ->
  send_attempt net data retries attempt = (Exc e, [Post API_URL data 5]).
Proof.
  intros H He. unfold send_attempt, requests_post. rewrite H.
  cbn. rewrite He. reflexivity.
Qed.

(** One post per attempt, whatever the answer. *)
Lemma send_attempt_posts attempt :
  count_posts (events (send_attempt net data retries attempt)) = 1.
Proof.
  destruct (net attempt) as [s t | e] eqn:H.
  - destruct (Z.eq_dec s 200) as [-> | Hs].
    + rewrite (send_attempt_accepted _ _ H). reflexivity.
    + rewrite (send_attempt_rejected _ _ _ H Hs). reflexivity.
  - destruct e; try (rewrite (send_attempt_other _ _ H eq_refl); reflexivity).
    rewrite (send_attempt_request_exception _ H). cbn.
    destruct (attempt <? retries - 1); reflexivity.
Qed.

Lemma send_attempt_failed attempt :
  failed_attempt (net attempt) = true ->
  result (send_attempt net data retries attempt) = Val None.
Proof.
  destruct (net attempt) as [s t | e] eqn:H; cbn [failed_attempt]; intros Hf.
  - apply negb_true_iff, Z.eqb_neq in Hf.
    rewrite (send_attempt_rejected _ _ _ H Hf). reflexivity.
  - destruct e; try discriminate.
    rewrite (send_attempt_request_exception _ H). reflexivity.
Qed.

Lemma send_attempt_returns attempt :
  answers_or_request_exception (net attempt) = true ->
  exists r, result (send_attempt net data retries attempt) = Val r.
Proof.
  destruct (net attempt) as [s t | e] eqn:H;
    cbn [answers_or_request_exception]; intros Hf.
  - destruct (Z.eq_dec s 200) as [-> | Hs].
    + rewrite (send_attempt_accepted _ _ H). eexists; reflexivity.
    + rewrite (send_attempt_rejected _ _ _ H Hs). eexists; reflexivity.
  - destruct e; try discriminate.
    rewrite (send_attempt_request_exception _ H). eexists; reflexivity.
Qed.

Lemma count_posts_app evs evs' :
  count_posts (evs ++ evs') = count_posts evs + count_posts evs'.
Proof.
  unfold count_posts. rewrite filter_app, length_app. lia.
Qed.

Lemma send_attempts_all_failed attempts :
  (forall k, In k attempts -> failed_attempt (net k) = true) ->
  result (send_attempts net data retries attempts) = Val false
  /\ count_posts (events (send_attempts net data retries attempts))
     = Z.of_nat (List.length attempts).
Proof.
  induction attempts as [| k attempts IH]; intros H.
  - split; reflexivity.
  - cbn [send_attempts].
    pose proof (send_attempt_failed k (H k (or_introl eq_refl))) as Hk.
    destruct IH as [IH1 IH2]; [intros j Hj; apply H; right; exact Hj |].
    rewrite result_bind, events_bind, Hk. split; [exact IH1 |].
    rewrite count_posts_app, send_attempt_posts, IH2.
    cbn [List.length]. lia.
Qed.

Lemma send_attempts_returns attempts :
  (forall k, answers_or_request_exception (net k) = true) ->
  exists b, result (send_attempts net data retries attempts) = Val b.
Proof.
  intros H. induction attempts as [| k attempts IH].
  - exists false. reflexivity.
  - cbn [send_attempts]. rewrite result_bind.
    destruct (send_attempt_returns k (H k)) as [[b |] Hr]; rewrite Hr.
    + exists b. reflexivity.
    + exact IH.
Qed.

End Send.

Lemma range_length n : 0 <= n -> Z.of_nat (List.length (range n)) = n.
Proof.
  intros H. unfold range. rewrite length_map, length_seq. lia.
Qed.

Lemma range_in n k : In k (range n) -> 0 <= k < n.
Proof.
  unfold range. intros H. apply in_map_iff in H as (i & <- & Hi).
  apply in_seq in Hi. lia.
Qed.

End SendFacts.

(* ===================================================================== *)
(** * One iteration of the loop *)
(* ===================================================================== *)

Module LoopFacts.
Import PyStr PyFloat Eff Worker Tokens.
Import EffFacts.

Lemma result_of_outcome {A} (o : outcome A) : result (of_outcome o) = o.
Proof. reflexivity. Qed.

Lemma result_ret {A} (a : A) : result (ret a) = Val a.
Proof. reflexivity. Qed.

(** The tail of the loop body: the pause and the breaker test. *)
Lemma iteration_no_input w c n :
  in_waiting w = Val n -> n <= 0 ->
  iteration w c =
  (Val (if max_consecutive_errors <=? c then Break c else Next c),
   Sleep (1 # 10)
   :: (if max_consecutive_errors <=? c then [Log ERROR (TooManyErrors c)]
       else [])).
Proof.
  intros Hn Hle. unfold iteration, iteration_body. rewrite Hn.
  change (of_outcome (Val n)) with (ret n). rewrite bind_ret_l.
  rewrite (proj2 (Z.ltb_ge 0 n) Hle), bind_ret_l.
  destruct (max_consecutive_errors <=? c); reflexivity.
Qed.

Lemma iteration_fault w c e :
  in_waiting w = Exc e -> is_Exception e = true ->
  iteration w c = (Val (Next (c + 1)), [Log ERROR (LoopError e); Sleep 1]).
Proof.
  intros Hn He. unfold iteration, iteration_body. rewrite Hn.
  cbn. rewrite He. reflexivity.
Qed.

Lemma result_iteration_line w c n raw :
  in_waiting w = Val n -> 0 < n -> readline w = Val raw ->
  is_empty (strip raw) = false ->
  result (iteration_body w c) =
  match result (parse_sensor_line (strip raw)) with
  | Val (Some d) =>
      match result (send_sensor_data (net w) d MAX_RETRIES) with
      | Val true => Val (Next 0)
      | Val false =>
          Val (if max_consecutive_errors <=? c + 1 then Break (c + 1)
               else Next (c + 1))
      | Exc e => Exc e
      end
  | Val None =>
      Val (if max_consecutive_errors <=? c then Break c else Next c)
  | Exc e => Exc e
  end.
Proof.
  intros Hn Hpos Hr Hne. unfold iteration_body.
  rewrite Hn, Hr.
  rewrite result_bind, result_of_outcome.
  rewrite result_bind.
  destruct (Z.ltb_spec 0 n); [| lia].
  rewrite result_bind, result_of_outcome. rewrite Hne.
  rewrite result_bind. cbn [log emit result fst].
  rewrite result_bind.
  destruct (result (parse_sensor_line (strip raw))) as [[d |] | e];
    [| | reflexivity].
  - rewrite result_bind.
    destruct (result (send_sensor_data (net w) d MAX_RETRIES)) as [[] | e];
      [| | reflexivity].
    + reflexivity.
    + rewrite result_ret, result_bind. cbn [sleep emit result fst].
      destruct (max_consecutive_errors <=? c + 1); reflexivity.
  - rewrite result_bind. cbn [log emit result fst]. rewrite result_ret.
    rewrite result_bind. cbn [sleep emit result fst].
    destruct (max_consecutive_errors <=? c); reflexivity.
Qed.

End LoopFacts.

(* ===================================================================== *)
(** * The line parser *)
(* ===================================================================== *)

Import PyStr PyFloat Eff Worker Tokens Numeral.
Import StrFacts NumeralFacts EffFacts ParserFacts FormatFacts.
Import ValidateFacts SendFacts LoopFacts.
Import Samples.

(** Claim C1.  A line "pH: X TDS: Y Turbidity: Z" whose three numerals are
    well formed, with X between 0 and 14 and Y, Z not negative, is parsed
    into the reading that holds the floats written by X, Y and Z. *)
Theorem parse_well_formed_line (x y z : numeral) :
  well_formed x = true -> well_formed y = true -> well_formed z = true ->
  (0 <= value x)%Q -> (value x <= 14)%Q ->
  (0 <= value y)%Q -> (0 <= value z)%Q ->
  result (parse_sensor_line (sensor_line (text x) (text y) (text z))) =
  Val (Some {| ph := to_float x; tds := to_float y;
               turbidity := to_float z |}).
Proof.
  intros Hx Hy Hz Hx0 Hx14 _ _.
  rewrite (parse_sensor_line_eq _ (sensor_line_not_blank _ _ _)).
  rewrite (sensor_line_split _ _ _ (numeral_is_token x Hx)
             (numeral_is_token y Hy) (numeral_is_token z Hz)).
  rewrite (sensor_line_fields x y z Hx Hy Hz).
  destruct (value_bounds_float x Hx Hx0 Hx14) as [L0 L14].
  unfold validate. rewrite L0, L14. cbn [andb negb].
  destruct (_ || _); destruct (_ || _); reflexivity.
Qed.

Lemma parse_well_formed_line_witness :
  result (parse_sensor_line "pH: 7.2 TDS: 145 Turbidity: 2.3") =
  Val (Some {| ph := to_float numeral_7_2; tds := to_float numeral_145;
               turbidity := to_float numeral_2_3 |}).
Proof.
  apply (parse_well_formed_line numeral_7_2 numeral_145 numeral_2_3);
    vm_compute; try reflexivity; discriminate.
Defined.

Lemma validate_rejects_ph line p t u :
  inside 0 14 p = false ->
  validate line (Some p, Some t, Some u) =
  (Val None, [Log WARNING (InvalidPh p)]).
Proof.
  intros H. unfold validate. fold (inside 0 14 p). rewrite H. reflexivity.
Qed.

Lemma validate_accepts line p t u :
  inside 0 14 p = true ->
  validate line (Some p, Some t, Some u) =
  (Val (Some {| ph := p; tds := t; turbidity := u |}), soft_warnings t u).
Proof.
  intros H. unfold validate, soft_warnings.
  fold (inside 0 14 p) (outside 0 10000 t) (outside 0 100 u). rewrite H.
  destruct (outside 0 10000 t); destruct (outside 0 100 u); reflexivity.
Qed.

Lemma fields_not_blank line p t u :
  result (extract_fields (split line)) = Val (Some p, Some t, Some u) ->
  blank line = false
  /\ resolved_fields (split line) = (Some p, Some t, Some u).
Proof.
  rewrite extract_fields_ret. unfold result, ret. cbn [fst]. intros H.
  injection H as Hp Ht Hu.
  assert (Hf : resolved_fields (split line) = (Some p, Some t, Some u))
    by (unfold resolved_fields; rewrite Hp, Ht, Hu; reflexivity).
  split; [| exact Hf].
  apply (resolved_not_blank line p). rewrite Hf. reflexivity.
Qed.

(** Claim C2.  When the three fields resolve to numbers, a pH outside
    [0, 14] rejects the line with one warning (and so does any pH that is
    not inside, such as nan), whereas with a pH inside the range the reading
    is returned whatever TDS and turbidity are, with one warning for each of
    them that lies outside its range, [0, 10000] and [0, 100]. *)
Theorem validation_is_asymmetric line p t u :
  result (extract_fields (split line)) = Val (Some p, Some t, Some u) ->
  (outside 0 14 p = true ->
   parse_sensor_line line = (Val None, [Log WARNING (InvalidPh p)]))
  /\ (inside 0 14 p = false ->
      parse_sensor_line line = (Val None, [Log WARNING (InvalidPh p)]))
  /\ (inside 0 14 p = true ->
      parse_sensor_line line =
      (Val (Some {| ph := p; tds := t; turbidity := u |}),
       soft_warnings t u)).
Proof.
  intros H. destruct (fields_not_blank line p t u H) as [Hb Hf].
  rewrite (parse_sensor_line_eq _ Hb), Hf.
  split; [| split]; intros Hp.
  - apply validate_rejects_ph, outside_not_inside, Hp.
  - apply validate_rejects_ph, Hp.
  - apply validate_accepts, Hp.
Qed.

Lemma validation_is_asymmetric_witness :
  parse_sensor_line "pH: 7 TDS: 20000 Turbidity: 200" =
  (Val (Some {| ph := of_int 7; tds := of_int 20000;
                turbidity := of_int 200 |}),
   [Log WARNING (TdsOutOfRange (of_int 20000));
    Log WARNING (TurbidityOutOfRange (of_int 200))])
  /\ parse_sensor_line "pH: 15 TDS: 10 Turbidity: 1" =
     (Val None, [Log WARNING (InvalidPh (of_int 15))]).
Proof.
  split.
  - apply (proj2 (proj2 (validation_is_asymmetric
             "pH: 7 TDS: 20000 Turbidity: 200"
             (of_int 7) (of_int 20000) (of_int 200) eq_refl))).
    reflexivity.
  - apply (proj1 (validation_is_asymmetric
             "pH: 15 TDS: 10 Turbidity: 1"
             (of_int 15) (of_int 10) (of_int 1) eq_refl)).
    reflexivity.
Defined.

(** Claim C5.  For each field the value after both strategies is the one of
    the keyword loop when that loop found one, and otherwise the float
    written by the token at the fixed index (1, 4, 6); each field depends on
    its own loop and its own index only. *)
Theorem fallback_only_when_scan_found_nothing parts ph_kw tds_kw turb_kw :
  result (keyword_loop hit_ph parts) = Val ph_kw ->
  result (keyword_loop hit_tds parts) = Val tds_kw ->
  result (keyword_loop hit_turbidity parts) = Val turb_kw ->
  extract_fields parts =
  ret (match ph_kw with Some v => Some v | None => token_value parts 1 end,
       match tds_kw with Some v => Some v | None => token_value parts 4 end,
       match turb_kw with Some v => Some v | None => token_value parts 6 end).
Proof.
  rewrite !keyword_loop_ret. unfold result, ret. cbn [fst].
  intros Hp Ht Hu. injection Hp as <-. injection Ht as <-. injection Hu as <-.
  rewrite extract_fields_ret. unfold resolved_fields, resolve, or_else.
  destruct (scan hit_ph parts), (scan hit_tds parts),
    (scan hit_turbidity parts); reflexivity.
Qed.

Lemma fallback_only_when_scan_found_nothing_witness :
  extract_fields (split "7 6 pH: x TDS: 99 3") =
  ret (Some (of_int 6), Some (of_int 99), Some (of_int 3)).
Proof.
  apply (fallback_only_when_scan_found_nothing
           (split "7 6 pH: x TDS: 99 3") None (Some (of_int 99)) None);
    reflexivity.
Defined.

(** Claim C6, as stated, fails: in "pH: 7 pH: x TDS: 1 Turbidity: 2" the
    last token that holds "ph" is token 2, no value is taken there (the next
    token is not a number), and the loop ends with 7, taken at token 0. *)
Lemma last_keyword_token_does_not_always_win :
  last_keyword_index hit_ph (split line_two_ph) = Some 2%nat
  /\ token_value (split line_two_ph) 3 = None
  /\ result (keyword_loop hit_ph (split line_two_ph)) = Val (Some (of_int 7)).
Proof. repeat split; reflexivity. Qed.

(** Claim C6, amended.  The keyword loop runs over all tokens and ends with
    the value taken at the last token that holds the keyword and is
    followed by a token that converts to a float; later tokens that hold
    the keyword without such a follower leave it in place. *)
Theorem last_extraction_wins hit parts i x :
  extraction_at hit parts i = Some x ->
  (forall j, (i < j)%nat -> extraction_at hit parts j = None) ->
  keyword_loop hit parts = ret (Some x).
Proof.
  intros Hi Hlater. rewrite keyword_loop_ret.
  rewrite (scan_last_hit hit parts i x Hi Hlater). reflexivity.
Qed.

Lemma last_extraction_wins_witness :
  keyword_loop hit_ph (split "pH: 7 pH: 8 TDS: 1 graph ok") =
  ret (Some (of_int 8)).
Proof.
  apply (last_extraction_wins hit_ph
           (split "pH: 7 pH: 8 TDS: 1 graph ok") 2 (of_int 8)).
  - reflexivity.
  - intros j Hj.
    destruct j as [| [| [| [| [| [| [| [| j]]]]]]]]; try lia; try reflexivity.
    unfold extraction_at, keyword_at. destruct j; reflexivity.
Defined.

(** Claim C8.  [parse_sensor_line] returns on every line, and so does the
    body of its outer [try]: no exception reaches the outer handler.  A
    line of white space only (the empty line too) is rejected without any
    event.  When the conversion of a token raises, the [try] block around
    it returns normally and leaves the field as it was. *)
Theorem parse_sensor_line_total line :
  (exists r, result (parse_sensor_line line) = Val r)
  /\ (exists r, result (parse_body line) = Val r)
  /\ (all_chars isspace line = true -> parse_sensor_line line = ret None)
  /\ (forall current parts k e,
        result (float_at parts k) = Exc e ->
        try_float_at current parts k = ret current).
Proof.
  assert (Hbody : exists r, result (parse_body line) = Val r)
    by (rewrite parse_body_eq; apply validate_val).
  repeat split.
  - destruct (blank line) eqn:Hb.
    + rewrite (parse_sensor_line_blank _ Hb). exists None. reflexivity.
    + rewrite (parse_sensor_line_eq _ Hb). apply validate_val.
  - exact Hbody.
  - intros Hs. apply parse_sensor_line_blank, blank_iff_spaces, Hs.
  - intros current parts k e He. rewrite try_float_at_ret.
    unfold float_at, token_value in *.
    destruct (nth_error parts k) as [tok |]; [| reflexivity].
    destruct (py_float (remove_char ":" tok)); [discriminate | reflexivity].
Qed.

Lemma parse_sensor_line_total_witness :
  parse_sensor_line "   " = ret None
  /\ try_float_at (Some (of_int 7)) ["pH:"; "abc"] 1 = ret (Some (of_int 7)).
Proof.
  split.
  - apply (proj1 (proj2 (proj2 (parse_sensor_line_total "   ")))).
    reflexivity.
  - apply (proj2 (proj2 (proj2 (parse_sensor_line_total "")))
             (Some (of_int 7)) ["pH:"; "abc"] 1%nat ValueError).
    reflexivity.
Defined.

Lemma keyword_at_contains hit kw parts i tok a b :
  (forall s, contains kw s = true -> hit s = true) ->
  nth_error parts i = Some tok ->
  lower tok = a ++ kw ++ b ->
  keyword_at hit parts i = true.
Proof.
  intros Hhit Hi Hl. unfold keyword_at. rewrite Hi. apply Hhit.
  rewrite Hl. apply contains_app.
Qed.

(** Claim C10.  A token whose lower-cased text contains "ph" ("tds",
    "turb") anywhere holds the keyword: when the token after it converts to
    a float and no later token gives a value, that float is what the loop
    of the field ends with. *)
Theorem keyword_is_matched_by_containment parts i tok a b x :
  nth_error parts i = Some tok ->
  token_value parts (i + 1) = Some x ->
  (lower tok = a ++ "ph" ++ b ->
   (forall j, (i < j)%nat -> extraction_at hit_ph parts j = None) ->
   keyword_loop hit_ph parts = ret (Some x))
  /\ (lower tok = a ++ "tds" ++ b ->
      (forall j, (i < j)%nat -> extraction_at hit_tds parts j = None) ->
      keyword_loop hit_tds parts = ret (Some x))
  /\ (lower tok = a ++ "turb" ++ b ->
      (forall j, (i < j)%nat -> extraction_at hit_turbidity parts j = None) ->
      keyword_loop hit_turbidity parts = ret (Some x)).
Proof.
  intros Hi Hx.
  assert (G : forall hit kw,
             (forall s, contains kw s = true -> hit s = true) ->
             lower tok = a ++ kw ++ b ->
             (forall j, (i < j)%nat -> extraction_at hit parts j = None) ->
             keyword_loop hit parts = ret (Some x)).
  { intros hit kw Hhit Hl Hlater. rewrite keyword_loop_ret.
    rewrite (scan_last_hit hit parts i x); [reflexivity | | exact Hlater].
    unfold extraction_at.
    rewrite (keyword_at_contains hit kw parts i tok a b Hhit Hi Hl).
    exact Hx. }
  split; [| split].
  - apply (G hit_ph "ph"). intros s Hs. exact Hs.
  - apply (G hit_tds "tds"). intros s Hs. exact Hs.
  - apply (G hit_turbidity "turb"). intros s Hs. unfold hit_turbidity.
    rewrite Hs. apply orb_true_r.
Qed.

Lemma keyword_is_matched_by_containment_witness :
  keyword_loop hit_ph ["Graph"; "7"] = ret (Some (of_int 7)).
Proof.
  apply (proj1 (keyword_is_matched_by_containment
                  ["Graph"; "7"] 0 "Graph" "gra" "" (of_int 7)
                  eq_refl eq_refl)).
  - reflexivity.
  - intros j Hj. destruct j as [| [| j]]; try lia; try reflexivity.
    unfold extraction_at, keyword_at. destruct j; reflexivity.
Defined.

(* ===================================================================== *)
(** * The delivery client and the supervising loop *)
(* ===================================================================== *)

(** Claim C7.  When every attempt gets a response or a [RequestException],
    [send_sensor_data] returns a boolean.  When each of the [retries]
    attempts fails (a status other than 200, or a [RequestException]) it
    posts exactly [retries] times and returns [False]. *)
Theorem send_exhausts_attempts_and_returns_false net data retries :
  ((forall k, answers_or_request_exception (net k) = true) ->
   exists b, result (send_sensor_data net data retries) = Val b)
  /\ (0 <= retries ->
      (forall k, 0 <= k < retries -> failed_attempt (net k) = true) ->
      result (send_sensor_data net data retries) = Val false
      /\ count_posts (events (send_sensor_data net data retries)) = retries).
Proof.
  split.
  - intros H. apply send_attempts_returns, H.
  - intros H0 H. unfold send_sensor_data.
    destruct (send_attempts_all_failed net data retries (range retries))
      as [Hr Hc]; [intros k Hk; apply H, range_in, Hk |].
    rewrite Hr, Hc, (range_length retries H0). split; reflexivity.
Qed.

Lemma send_exhausts_attempts_and_returns_false_witness :
  result (send_sensor_data unreachable reading_7_1_2 MAX_RETRIES) = Val false
  /\ count_posts (events (send_sensor_data unreachable reading_7_1_2
                            MAX_RETRIES)) = 3.
Proof.
  apply (proj2 (send_exhausts_attempts_and_returns_false
                  unreachable reading_7_1_2 MAX_RETRIES)).
  - unfold MAX_RETRIES. lia.
  - intros k _. reflexivity.
Defined.

(** Claim C4 fails on the code: when the collector answers 500 to each of
    the three attempts, the attempts follow one another with no [Sleep]
    between them.  (The delay is there after a [RequestException] only.) *)
Theorem rejected_status_retries_without_delay data text :
  send_sensor_data (always_status 500 text) data MAX_RETRIES =
  (Val false,
   [Post API_URL data 5; Log WARNING (ApiStatus 500 text);
    Post API_URL data 5; Log WARNING (ApiStatus 500 text);
    Post API_URL data 5; Log WARNING (ApiStatus 500 text);
    Log ERROR (SendFailed 3)]).
Proof. reflexivity. Qed.

Lemma iteration_unplugged c :
  iteration unplugged c =
  (Val (Next (c + 1)), [Log ERROR (LoopError SerialException); Sleep 1]).
Proof. apply iteration_fault; reflexivity. Qed.

(** Claim C3 fails on the code: when every iteration raises (the port is
    gone), the counter grows by one each time and the loop is still running
    after any number of iterations, also with the counter at 10 and
    above. *)
Theorem faulting_iterations_never_break (n : nat) (c : Z) :
  result (while_true (repeat unplugged n) c) =
  Val (Running (c + Z.of_nat n)).
Proof.
  revert c. induction n as [| n IH]; intros c.
  - cbn [repeat while_true]. rewrite Z.add_0_r. reflexivity.
  - cbn [repeat while_true]. rewrite result_bind, iteration_unplugged.
    cbn [result fst]. rewrite IH. f_equal. f_equal. lia.
Qed.

Lemma result_iteration w c :
  result (iteration w c) =
  match result (iteration_body w c) with
  | Val f => Val f
  | Exc e => if is_Exception e then Val (Next (c + 1)) else Exc e
  end.
Proof.
  unfold iteration. rewrite result_try_except.
  destruct (result (iteration_body w c)) as [f | e]; [reflexivity |].
  destruct (is_Exception e); reflexivity.
Qed.

Lemma iteration_blank_line w c n raw :
  in_waiting w = Val n -> 0 < n -> readline w = Val raw ->
  is_empty (strip raw) = true ->
  iteration w c = (Val (Continue c), []).
Proof.
  intros Hn Hpos Hr He. unfold iteration, iteration_body. rewrite Hn, Hr.
  change (of_outcome (Val n)) with (ret n). rewrite bind_ret_l.
  rewrite (proj2 (Z.ltb_lt 0 n) Hpos).
  change (of_outcome (Val raw)) with (ret raw). rewrite bind_ret_l, He.
  reflexivity.
Qed.

(** Claim C9.  In an iteration whose port answers, the counter is left as
    it was when no line is waiting, when the line is empty once stripped
    and when the parser rejects the line; it is set to 0 when the delivery
    succeeds, whatever it was, and grows by one when the delivery fails. *)
Theorem counter_evolution w c n :
  in_waiting w = Val n ->
  (n <= 0 -> counter_after (iteration w c) = Some c)
  /\ (0 < n -> forall raw, readline w = Val raw ->
      (is_empty (strip raw) = true ->
       counter_after (iteration w c) = Some c)
      /\ (is_empty (strip raw) = false ->
          (result (parse_sensor_line (strip raw)) = Val None ->
           counter_after (iteration w c) = Some c)
          /\ (forall d,
                result (parse_sensor_line (strip raw)) = Val (Some d) ->
                (result (send_sensor_data (net w) d MAX_RETRIES) = Val true ->
                 counter_after (iteration w c) = Some 0)
                /\ (result (send_sensor_data (net w) d MAX_RETRIES)
                    = Val false ->
                    counter_after (iteration w c) = Some (c + 1))))).
Proof.
  intros Hn. split.
  - intros Hle. rewrite (iteration_no_input w c n Hn Hle).
    unfold counter_after. cbn [result fst].
    destruct (max_consecutive_errors <=? c); reflexivity.
  - intros Hpos raw Hr. split.
    + intros He. rewrite (iteration_blank_line w c n raw Hn Hpos Hr He).
      reflexivity.
    + intros He. unfold counter_after. rewrite result_iteration.
      rewrite (result_iteration_line w c n raw Hn Hpos Hr He).
      split.
      * intros Hp. rewrite Hp.
        destruct (max_consecutive_errors <=? c); reflexivity.
      * intros d Hp. rewrite Hp. split; intros Hs; rewrite Hs.
        -- reflexivity.
        -- destruct (max_consecutive_errors <=? c + 1); reflexivity.
Qed.

Lemma counter_evolution_witness :
  counter_after
    (iteration (reads "pH: 7 TDS: 1 Turbidity: 2" (always_status 200 "ok")) 4)
  = Some 0
  /\ counter_after
       (iteration (reads "pH: 7 TDS: 1 Turbidity: 2" unreachable) 4)
     = Some 5
  /\ counter_after (iteration (reads "no numbers here" unreachable) 4)
     = Some 4.
Proof.
  split; [| split].
  - apply (proj1 (proj2 (proj2 (proj2 (counter_evolution
             (reads "pH: 7 TDS: 1 Turbidity: 2" (always_status 200 "ok"))
             4 1 eq_refl) ltac:(lia) _ eq_refl) eq_refl)
             reading_7_1_2 eq_refl)).
    reflexivity.
  - apply (proj2 (proj2 (proj2 (proj2 (counter_evolution
             (reads "pH: 7 TDS: 1 Turbidity: 2" unreachable)
             4 1 eq_refl) ltac:(lia) _ eq_refl) eq_refl)
             reading_7_1_2 eq_refl)).
    reflexivity.
  - apply (proj1 (proj2 (proj2 (counter_evolution
             (reads "no numbers here" unreachable)
             4 1 eq_refl) ltac:(lia) _ eq_refl) eq_refl)).
    reflexivity.
Defined.


(* ===================================================================== *)
(** * Further properties of the parser *)
(* ===================================================================== *)

Lemma validate_some line fields r :
  result (validate line fields) = Val (Some r) ->
  fields = (Some (ph r), Some (tds r), Some (turbidity r))
  /\ inside 0 14 (ph r) = true.
Proof.
  destruct fields as [[[p |] [t |]] [u |]]; unfold validate;
    try discriminate.
  fold (inside 0 14 p). destruct (inside 0 14 p) eqn:Hin; cbn [negb].
  - destruct (_ || _); destruct (_ || _); cbn; intros H;
      injection H as <-; (split; [reflexivity | exact Hin]).
  - discriminate.
Qed.

Lemma parse_some line r :
  result (parse_sensor_line line) = Val (Some r) ->
  blank line = false
  /\ resolved_fields (split line)
     = (Some (ph r), Some (tds r), Some (turbidity r))
  /\ inside 0 14 (ph r) = true.
Proof.
  intros H. destruct (blank line) eqn:Hb.
  - rewrite (parse_sensor_line_blank _ Hb) in H. discriminate.
  - rewrite (parse_sensor_line_eq _ Hb) in H.
    split; [reflexivity | apply (validate_some line), H].
Qed.

(** A reading returned by the parser has its pH inside [0, 14], whatever
    the line was; in particular the pH is neither nan nor infinite. *)
Theorem accepted_ph_in_range line r :
  result (parse_sensor_line line) = Val (Some r) ->
  le (of_int 0) (ph r) = true /\ le (ph r) (of_int 14) = true
  /\ is_finite (ph r) = true.
Proof.
  intros H. destruct (parse_some line r H) as (_ & _ & Hin).
  unfold inside in Hin. apply andb_true_iff in Hin as [H0 H14].
  repeat split; try assumption.
  destruct (ph r) as [s | s | | s m e]; try reflexivity.
  - destruct s; discriminate.
  - discriminate.
Qed.

Lemma accepted_ph_in_range_witness :
  le (of_int 0) (of_int 7) = true /\ le (of_int 7) (of_int 14) = true
  /\ is_finite (of_int 7) = true.
Proof.
  apply (accepted_ph_in_range "pH: 7 TDS: 1 Turbidity: 2" reading_7_1_2).
  reflexivity.
Defined.

(** When a field is still unresolved after both strategies, a line that is
    not blank is rejected with the one warning that names the line. *)
Theorem incomplete_line_rejected line a b c :
  blank line = false ->
  result (extract_fields (split line)) = Val (a, b, c) ->
  a = None \/ b = None \/ c = None ->
  parse_sensor_line line = (Val None, [Log WARNING (IncompleteData line)]).
Proof.
  intros Hb Hf Hnone. rewrite (parse_sensor_line_eq _ Hb).
  rewrite extract_fields_ret in Hf. unfold result, ret in Hf. cbn [fst] in Hf.
  injection Hf as Ha Hb' Hc. unfold resolved_fields. rewrite Ha, Hb', Hc.
  destruct Hnone as [-> | [-> | ->]]; unfold validate.
  - reflexivity.
  - destruct a; reflexivity.
  - destruct a; [destruct b |]; reflexivity.
Qed.

Lemma incomplete_line_rejected_witness :
  parse_sensor_line "pH: 7 TDS: 145" =
  (Val None, [Log WARNING (IncompleteData "pH: 7 TDS: 145")]).
Proof.
  apply (incomplete_line_rejected "pH: 7 TDS: 145"
           (Some (of_int 7)) (Some (of_int 145)) None);
    [reflexivity | reflexivity | right; right; reflexivity].
Defined.

(** A line with fewer than two tokens is always rejected: the keyword loop
    needs a token after the keyword, the fallback a token at index 1 at
    least. *)
Theorem short_line_rejected line :
  (List.length (split line) <= 1)%nat ->
  result (parse_sensor_line line) = Val None.
Proof.
  intros Hlen. destruct (blank line) eqn:Hb.
  - rewrite (parse_sensor_line_blank _ Hb). reflexivity.
  - rewrite (parse_sensor_line_eq _ Hb).
    destruct (split line) as [| t [| t' rest]]; [reflexivity | | cbn in Hlen; lia].
    unfold resolved_fields, resolve, scan, enumerate, scan_step.
    cbn [List.length seq combine fold_left fst snd Nat.add Nat.ltb Nat.leb].
    rewrite !andb_false_r. reflexivity.
Qed.

Lemma short_line_rejected_witness :
  result (parse_sensor_line "pH:7.2") = Val None.
Proof. apply (short_line_rejected "pH:7.2"). cbn. lia. Defined.

Lemma scan_upto_some hit parts n x :
  scan_upto hit parts n = Some x ->
  exists i, (i < n)%nat /\ extraction_at hit parts i = Some x.
Proof.
  induction n as [| n IH]; [discriminate |].
  rewrite scan_upto_S.
  destruct (extraction_at hit parts n) as [y |] eqn:E; cbn [or_else].
  - intros H. injection H as <-. exists n. split; [lia | exact E].
  - intros H. destruct (IH H) as (i & Hi & Hx). exists i. split; [lia | exact Hx].
Qed.

Lemma extraction_at_token hit parts i x :
  extraction_at hit parts i = Some x -> token_value parts (i + 1) = Some x.
Proof.
  unfold extraction_at. destruct (keyword_at hit parts i); [tauto | discriminate].
Qed.

Lemma resolve_some hit k parts x :
  (1 <= k)%nat ->
  resolve hit k parts = Some x ->
  exists i, (1 <= i)%nat /\ token_value parts i = Some x.
Proof.
  intros Hk. unfold resolve.
  destruct (scan hit parts) as [y |] eqn:E; cbn [or_else].
  - intros H. injection H as <-. rewrite scan_eq_upto in E.
    destruct (scan_upto_some _ _ _ _ E) as (i & _ & Hx).
    exists (i + 1)%nat. split; [lia | apply (extraction_at_token hit), Hx].
  - intros H. exists k. split; [exact Hk | exact H].
Qed.

(** The fields of a reading are values written on the line: each is the
    float of some token other than the first, colons dropped. *)
Theorem fields_come_from_tokens line r :
  result (parse_sensor_line line) = Val (Some r) ->
  exists i j k,
    (1 <= i)%nat /\ (1 <= j)%nat /\ (1 <= k)%nat
    /\ token_value (split line) i = Some (ph r)
    /\ token_value (split line) j = Some (tds r)
    /\ token_value (split line) k = Some (turbidity r).
Proof.
  intros H. destruct (parse_some line r H) as (_ & Hf & _).
  unfold resolved_fields in Hf. injection Hf as Hp Ht Hu.
  destruct (resolve_some hit_ph 1 _ _ ltac:(lia) Hp) as (i & Hi & Vi).
  destruct (resolve_some hit_tds 4 _ _ ltac:(lia) Ht) as (j & Hj & Vj).
  destruct (resolve_some hit_turbidity 6 _ _ ltac:(lia) Hu) as (k & Hk & Vk).
  exists i, j, k. repeat split; assumption.
Qed.

Lemma fields_come_from_tokens_witness :
  exists i j k,
    (1 <= i)%nat /\ (1 <= j)%nat /\ (1 <= k)%nat
    /\ token_value (split "pH: 7 TDS: 1 Turbidity: 2") i = Some (of_int 7)
    /\ token_value (split "pH: 7 TDS: 1 Turbidity: 2") j = Some (of_int 1)
    /\ token_value (split "pH: 7 TDS: 1 Turbidity: 2") k = Some (of_int 2).
Proof.
  apply (fields_come_from_tokens "pH: 7 TDS: 1 Turbidity: 2" reading_7_1_2).
  reflexivity.
Defined.

Lemma scan_without_keyword hit parts :
  (forall i, keyword_at hit parts i = false) -> scan hit parts = None.
Proof.
  intros H. apply scan_no_hit. intros j. unfold extraction_at.
  rewrite (H j). reflexivity.
Qed.

(** When no token holds any of the keywords the three fields are read at
    the fixed positions, tokens 1, 4 and 6. *)
Theorem positional_when_no_keyword parts :
  (forall i, keyword_at hit_ph parts i = false) ->
  (forall i, keyword_at hit_tds parts i = false) ->
  (forall i, keyword_at hit_turbidity parts i = false) ->
  extract_fields parts =
  ret (token_value parts 1, token_value parts 4, token_value parts 6).
Proof.
  intros Hp Ht Hu. rewrite extract_fields_ret.
  unfold resolved_fields, resolve.
  rewrite (scan_without_keyword _ _ Hp), (scan_without_keyword _ _ Ht),
    (scan_without_keyword _ _ Hu).
  reflexivity.
Qed.

Lemma positional_when_no_keyword_witness :
  extract_fields ["a"; "7"; "b"; "c"; "5"; "d"; "3"] =
  ret (Some (of_int 7), Some (of_int 5), Some (of_int 3)).
Proof.
  apply (positional_when_no_keyword ["a"; "7"; "b"; "c"; "5"; "d"; "3"]);
    intros i; do 7 (destruct i as [| i]; [reflexivity |]);
    unfold keyword_at; destruct i; reflexivity.
Defined.

(** [float] rejects a text that starts with the letter T. *)
Lemma py_float_T s : py_float (String "T" s) = None.
Proof.
  unfold py_float, strip.
  rewrite (lstrip_token "T" s eq_refl).
  assert (E : rstrip (String "T" s) = String "T" (rstrip s))
    by (cbn [rstrip]; destruct (rstrip s); reflexivity).
  rewrite E. cbn [take_sign lower].
  change (lower_char "T") with "t"%char.
  cbn [String.eqb Ascii.eqb Bool.eqb andb orb].
  cbn [underscores_ok remove_char].
  change (Ascii.eqb "T" "_") with false. cbv iota.
  destruct (underscores_ok (is_digit "T") (rstrip s)); [| reflexivity].
  unfold parse_number. cbn [span_digits].
  change (is_digit "T") with false. cbv iota. reflexivity.
Qed.

Lemma app_assoc_string (a b c : string) : (a ++ b) ++ c = a ++ b ++ c.
Proof. induction a as [| x a IH]; cbn [append]; [reflexivity | rewrite IH; reflexivity]. Qed.

Lemma tight_line_split X Y Z :
  all_chars not_space X = true -> all_chars not_space Y = true ->
  all_chars not_space Z = true ->
  split (tight_line X Y Z) = ["pH:" ++ X; "TDS:" ++ Y; "Turbidity:" ++ Z].
Proof.
  intros HX HY HZ.
  assert (E : tight_line X Y Z
              = join_tokens ["pH:" ++ X; "TDS:" ++ Y; "Turbidity:" ++ Z]).
  { unfold tight_line. cbn [join_tokens].
    rewrite (app_assoc_string "pH:" X), (app_assoc_string "TDS:" Y).
    reflexivity. }
  rewrite E. apply split_join_tokens. unfold is_token.
  cbn [forallb append is_empty negb andb all_chars].
  rewrite HX, HY, HZ. reflexivity.
Qed.

Lemma tight_line_not_blank X Y Z : blank (tight_line X Y Z) = false.
Proof.
  unfold blank. cbn [tight_line append is_empty orb].
  apply Nat.eqb_neq. intros E.
  apply (strip_head_nonempty "p" (String "H" (String ":"
           (X ++ " TDS:" ++ Y ++ " Turbidity:" ++ Z))) eq_refl).
  unfold len in E. destruct (strip _); [reflexivity | discriminate].
Qed.

Lemma tight_tokens_ph A Y Z :
  resolve hit_ph 1 [A; "TDS:" ++ Y; "Turbidity:" ++ Z] = None.
Proof.
  set (parts := [A; "TDS:" ++ Y; "Turbidity:" ++ Z]).
  assert (V1 : token_value parts 1 = None).
  { unfold token_value. cbn [parts nth_error append remove_char].
    change (Ascii.eqb "T" ":") with false. cbv iota. apply py_float_T. }
  assert (V2 : token_value parts 2 = None).
  { unfold token_value. cbn [parts nth_error append remove_char].
    change (Ascii.eqb "T" ":") with false. cbv iota. apply py_float_T. }
  unfold resolve. rewrite V1.
  rewrite (scan_no_hit hit_ph parts); [reflexivity |].
  intros j. unfold extraction_at.
  destruct j as [| [| [| j]]].
  - cbn [Nat.add]. rewrite V1. destruct (keyword_at _ _ _); reflexivity.
  - cbn [Nat.add]. rewrite V2. destruct (keyword_at _ _ _); reflexivity.
  - rewrite token_value_out by (cbn; lia).
    destruct (keyword_at _ _ _); reflexivity.
  - unfold keyword_at. cbn [parts nth_error]. destruct j; reflexivity.
Qed.

(** Written without a space after the colons, "pH:X TDS:Y Turbidity:Z",
    the line is rejected as incomplete whatever X, Y and Z are: the token
    after "pH:X" is "TDS:Y", which is not a number. *)
Theorem tight_line_rejected X Y Z :
  all_chars not_space X = true -> all_chars not_space Y = true ->
  all_chars not_space Z = true ->
  parse_sensor_line (tight_line X Y Z) =
  (Val None, [Log WARNING (IncompleteData (tight_line X Y Z))]).
Proof.
  intros HX HY HZ.
  rewrite (parse_sensor_line_eq _ (tight_line_not_blank X Y Z)).
  rewrite (tight_line_split X Y Z HX HY HZ).
  unfold resolved_fields. rewrite tight_tokens_ph. reflexivity.
Qed.

Lemma tight_line_rejected_witness :
  parse_sensor_line "pH:7.2 TDS:145 Turbidity:2.3" =
  (Val None,
   [Log WARNING (IncompleteData "pH:7.2 TDS:145 Turbidity:2.3")]).
Proof. apply (tight_line_rejected "7.2" "145" "2.3"); reflexivity. Defined.

(* ===================================================================== *)
(** * Further properties of the delivery client *)
(* ===================================================================== *)

Lemma range_nil n : n <= 0 -> range n = [].
Proof.
  intros H. unfold range.
  replace (Z.to_nat n) with 0%nat by lia. reflexivity.
Qed.

Lemma range_split n k :
  0 <= k < n ->
  range n = (range k ++ k :: map Z.of_nat (seq (S (Z.to_nat k))
                                              (Z.to_nat n - S (Z.to_nat k))))%list.
Proof.
  intros H. unfold range.
  replace (Z.to_nat n)
    with (Z.to_nat k + S (Z.to_nat n - S (Z.to_nat k)))%nat at 1 by lia.
  rewrite seq_app, map_app. cbn [seq map Nat.add].
  rewrite Z2Nat.id by lia. reflexivity.
Qed.

Lemma count_sleeps_app evs evs' :
  count_sleeps (evs ++ evs') = count_sleeps evs + count_sleeps evs'.
Proof.
  unfold count_sleeps. rewrite filter_app, length_app. lia.
Qed.

Section Delivery.
Variable net : network.
Variable data : SensorReadingCreate.
Variable retries : Z.

Lemma send_attempts_prefix_failed l1 l2 :
  (forall k, In k l1 -> failed_attempt (net k) = true) ->
  result (send_attempts net data retries (l1 ++ l2))
  = result (send_attempts net data retries l2)
  /\ count_posts (events (send_attempts net data retries (l1 ++ l2)))
     = Z.of_nat (List.length l1)
       + count_posts (events (send_attempts net data retries l2)).
Proof.
  induction l1 as [| k l1 IH]; intros H.
  - split; [reflexivity |]. cbn [List.length app]. lia.
  - cbn [app send_attempts].
    pose proof (send_attempt_failed net data retries k
                  (H k (or_introl eq_refl))) as Hk.
    destruct IH as [IH1 IH2]; [intros j Hj; apply H; right; exact Hj |].
    rewrite result_bind, events_bind, Hk. split; [exact IH1 |].
    rewrite count_posts_app, send_attempt_posts, IH2.
    cbn [List.length]. lia.
Qed.

Lemma send_attempts_posts_le attempts :
  0 <= count_posts (events (send_attempts net data retries attempts))
  <= Z.of_nat (List.length attempts) + 0.
Proof.
  induction attempts as [| k attempts IH].
  - cbn. lia.
  - cbn [send_attempts]. rewrite events_bind.
    pose proof (send_attempt_posts net data retries k) as Hp.
    destruct (result (send_attempt net data retries k)) as [[b |] | e].
    + rewrite count_posts_app, Hp. cbn [List.length]. cbn. lia.
    + rewrite count_posts_app, Hp. cbn [List.length]. lia.
    + rewrite Hp. cbn [List.length]. lia.
Qed.

Lemma send_attempt_sleeps attempt :
  count_sleeps (events (send_attempt net data retries attempt))
  = if andb (match net attempt with
             | PostRaises e => is_RequestException e
             | Response _ _ => false
             end) (attempt <? retries - 1)
    then 1 else 0.
Proof.
  destruct (net attempt) as [s t | e] eqn:H.
  - destruct (Z.eq_dec s 200) as [-> | Hs].
    + rewrite (send_attempt_accepted _ _ _ _ _ H). reflexivity.
    + rewrite (send_attempt_rejected _ _ _ _ _ _ H Hs). reflexivity.
  - destruct e; try (rewrite (send_attempt_other _ _ _ _ _ H eq_refl); reflexivity).
    rewrite (send_attempt_request_exception _ _ _ _ H).
    cbn [is_RequestException andb].
    destruct (attempt <? retries - 1); reflexivity.
Qed.

Lemma send_attempts_sleeps_le attempts :
  0 <= count_sleeps (events (send_attempts net data retries attempts))
  <= Z.of_nat (List.length (filter (fun a => a <? retries - 1) attempts)).
Proof.
  induction attempts as [| k attempts IH].
  - cbn. lia.
  - cbn [send_attempts filter]. rewrite events_bind.
    pose proof (send_attempt_sleeps k) as Hs.
    assert (Hk : 0 <= count_sleeps (events (send_attempt net data retries k))
                 <= if k <? retries - 1 then 1 else 0).
    { rewrite Hs. destruct (net k) as [| e]; [| destruct (is_RequestException e)];
        cbn [andb]; destruct (k <? retries - 1); lia. }
    assert (Hf : Z.of_nat (List.length
                   (if k <? retries - 1
                    then k :: filter (fun a => a <? retries - 1) attempts
                    else filter (fun a => a <? retries - 1) attempts))
                 = (if k <? retries - 1 then 1 else 0)
                   + Z.of_nat (List.length
                       (filter (fun a => a <? retries - 1) attempts)))
      by (destruct (k <? retries - 1); cbn [List.length]; lia).
    rewrite Hf.
    destruct (result (send_attempt net data retries k)) as [[b |] | e].
    + rewrite count_sleeps_app.
      change (count_sleeps (events (ret b))) with 0. lia.
    + rewrite count_sleeps_app. lia.
    + lia.
Qed.

End Delivery.

Lemma range_last n :
  1 <= n -> range n = (range (n - 1) ++ [n - 1])%list.
Proof.
  intros H. rewrite (range_split n (n - 1)) by lia.
  replace (Z.to_nat n - S (Z.to_nat (n - 1)))%nat with 0%nat by lia.
  reflexivity.
Qed.

Lemma filter_all {A} (f : A -> bool) l :
  (forall x, In x l -> f x = true) -> filter f l = l.
Proof.
  induction l as [| x l IH]; intros H; [reflexivity |].
  cbn [filter]. rewrite (H x (or_introl eq_refl)), IH; [reflexivity |].
  intros y Hy. apply H. right. exact Hy.
Qed.

Lemma early_attempts n :
  Z.of_nat (List.length (filter (fun a => a <? n - 1) (range n)))
  = Z.max 0 (n - 1).
Proof.
  destruct (Z.le_gt_cases n 0) as [H | H].
  - rewrite (range_nil n H). cbn. lia.
  - rewrite (range_last n) by lia. rewrite filter_app.
    rewrite (filter_all _ (range (n - 1)))
      by (intros x Hx; apply range_in in Hx; apply Z.ltb_lt; lia).
    cbn [filter]. rewrite Z.ltb_irrefl, app_nil_r.
    rewrite range_length by lia. lia.
Qed.

(** Delivery stops at the first accepted attempt: when attempts 0 to k-1
    fail and attempt k is answered 200, the reading is posted k+1 times and
    the result is [True]. *)
Theorem first_success_stops net data retries k text :
  0 <= k < retries ->
  (forall j, 0 <= j < k -> failed_attempt (net j) = true) ->
  net k = Response 200 text ->
  result (send_sensor_data net data retries) = Val true
  /\ count_posts (events (send_sensor_data net data retries)) = k + 1.
Proof.
  intros Hk Hfail Hok. unfold send_sensor_data.
  rewrite (range_split retries k Hk).
  destruct (send_attempts_prefix_failed net data retries (range k)
              (k :: map Z.of_nat (seq (S (Z.to_nat k))
                                      (Z.to_nat retries - S (Z.to_nat k)))))
    as [Hr Hp]; [intros j Hj; apply Hfail, range_in, Hj |].
  rewrite Hr, Hp, range_length by lia.
  cbn [send_attempts].
  rewrite result_bind, events_bind,
    (send_attempt_accepted net data retries k text Hok).
  cbn [result events fst snd]. split; [reflexivity |].
  cbn. lia.
Qed.

Lemma first_success_stops_witness :
  result (send_sensor_data
            (fun k => if k =? 1 then Response 200 "ok" else Response 503 "busy")
            reading_7_1_2 MAX_RETRIES) = Val true
  /\ count_posts
       (events (send_sensor_data
                  (fun k => if k =? 1 then Response 200 "ok"
                            else Response 503 "busy")
                  reading_7_1_2 MAX_RETRIES)) = 1 + 1.
Proof.
  apply (first_success_stops
           (fun k => if k =? 1 then Response 200 "ok" else Response 503 "busy")
           reading_7_1_2 MAX_RETRIES 1 "ok").
  - unfold MAX_RETRIES. lia.
  - intros j Hj. assert (j = 0) as -> by lia. reflexivity.
  - reflexivity.
Defined.

(** An exception of [requests.post] that is not a [RequestException] is
    not caught: it reaches the caller right after the post that raised
    it. *)
Theorem foreign_exception_escapes net data retries k e :
  0 <= k < retries ->
  (forall j, 0 <= j < k -> failed_attempt (net j) = true) ->
  net k = PostRaises e -> is_RequestException e = false ->
  result (send_sensor_data net data retries) = Exc e
  /\ count_posts (events (send_sensor_data net data retries)) = k + 1.
Proof.
  intros Hk Hfail Hraise He. unfold send_sensor_data.
  rewrite (range_split retries k Hk).
  destruct (send_attempts_prefix_failed net data retries (range k)
              (k :: map Z.of_nat (seq (S (Z.to_nat k))
                                      (Z.to_nat retries - S (Z.to_nat k)))))
    as [Hr Hp]; [intros j Hj; apply Hfail, range_in, Hj |].
  rewrite Hr, Hp, range_length by lia.
  cbn [send_attempts].
  rewrite result_bind, events_bind,
    (send_attempt_other net data retries k e Hraise He).
  cbn [result events fst snd]. split; [reflexivity |].
  cbn. lia.
Qed.

Lemma foreign_exception_escapes_witness :
  result (send_sensor_data (fun _ => PostRaises RuntimeError)
            reading_7_1_2 MAX_RETRIES) = Exc RuntimeError
  /\ count_posts (events (send_sensor_data (fun _ => PostRaises RuntimeError)
                            reading_7_1_2 MAX_RETRIES)) = 0 + 1.
Proof.
  apply (foreign_exception_escapes (fun _ => PostRaises RuntimeError)
           reading_7_1_2 MAX_RETRIES 0 RuntimeError).
  - unfold MAX_RETRIES. lia.
  - intros j Hj. lia.
  - reflexivity.
  - reflexivity.
Defined.

(** Whatever the collector does, one call posts at most [retries] times and
    sleeps at most [retries - 1] times: the time spent waiting is bounded
    by [(retries - 1) * RETRY_DELAY]. *)
Theorem delivery_effort_bounded net data retries :
  0 <= count_posts (events (send_sensor_data net data retries))
    <= Z.max 0 retries
  /\ 0 <= count_sleeps (events (send_sensor_data net data retries))
       <= Z.max 0 (retries - 1).
Proof.
  unfold send_sensor_data. split.
  - pose proof (send_attempts_posts_le net data retries (range retries)) as H.
    destruct (Z.le_gt_cases retries 0) as [Hr | Hr].
    + rewrite (range_nil _ Hr) in *. cbn in *. lia.
    + rewrite range_length in H by lia. lia.
  - pose proof (send_attempts_sleeps_le net data retries (range retries)) as H.
    rewrite early_attempts in H. exact H.
Qed.

(** With [retries] zero or negative nothing is posted: the call logs the
    failure and returns [False]. *)
Theorem no_attempt_without_retries net data retries :
  retries <= 0 ->
  send_sensor_data net data retries =
  (Val false, [Log ERROR (SendFailed retries)]).
Proof.
  intros H. unfold send_sensor_data. rewrite (range_nil _ H). reflexivity.
Qed.

Lemma no_attempt_without_retries_witness :
  send_sensor_data unreachable reading_7_1_2 0 =
  (Val false, [Log ERROR (SendFailed 0)]).
Proof.
  apply (no_attempt_without_retries unreachable reading_7_1_2 0). lia.
Defined.

Lemma send_attempts_unreachable data retries attempts :
  result (send_attempts unreachable data retries attempts) = Val false
  /\ count_posts (events (send_attempts unreachable data retries attempts))
     = Z.of_nat (List.length attempts)
  /\ count_sleeps (events (send_attempts unreachable data retries attempts))
     = Z.of_nat (List.length (filter (fun a => a <? retries - 1) attempts)).
Proof.
  induction attempts as [| k attempts (IH1 & IH2 & IH3)].
  - repeat split; reflexivity.
  - cbn [send_attempts filter].
    rewrite result_bind, events_bind,
      (send_attempt_request_exception unreachable data retries k eq_refl).
    cbn [result events fst snd].
    rewrite count_posts_app, count_sleeps_app, IH1, IH2, IH3.
    repeat split;
      destruct (k <? retries - 1); unfold count_posts, count_sleeps;
      cbn [app filter is_post is_sleep List.length]; lia.
Qed.

(** When the collector cannot be reached, a call with [retries >= 1] posts
    [retries] times and sleeps [retries - 1] times: once between two
    consecutive attempts and not after the last. *)
Theorem unreachable_collector_delays data retries :
  1 <= retries ->
  result (send_sensor_data unreachable data retries) = Val false
  /\ count_posts (events (send_sensor_data unreachable data retries))
     = retries
  /\ count_sleeps (events (send_sensor_data unreachable data retries))
     = retries - 1.
Proof.
  intros H. unfold send_sensor_data.
  destruct (send_attempts_unreachable data retries (range retries))
    as (H1 & H2 & H3).
  rewrite H1, H2, H3, early_attempts, range_length by lia.
  repeat split; lia.
Qed.

Lemma unreachable_collector_delays_witness :
  result (send_sensor_data unreachable reading_7_1_2 MAX_RETRIES) = Val false
  /\ count_posts (events (send_sensor_data unreachable reading_7_1_2
                            MAX_RETRIES)) = MAX_RETRIES
  /\ count_sleeps (events (send_sensor_data unreachable reading_7_1_2
                             MAX_RETRIES)) = MAX_RETRIES - 1.
Proof.
  apply (unreachable_collector_delays reading_7_1_2 MAX_RETRIES).
  unfold MAX_RETRIES. lia.
Defined.

(* ===================================================================== *)
(** * Further properties of the loop *)
(* ===================================================================== *)

Lemma result_iteration_poll_fault w c e :
  in_waiting w = Exc e ->
  result (iteration w c) =
  if is_Exception e then Val (Next (c + 1)) else Exc e.
Proof.
  intros H. rewrite result_iteration. unfold iteration_body.
  rewrite H, result_bind. reflexivity.
Qed.

Lemma result_iteration_read_fault w c n e :
  in_waiting w = Val n -> 0 < n -> readline w = Exc e ->
  result (iteration w c) =
  if is_Exception e then Val (Next (c + 1)) else Exc e.
Proof.
  intros Hn Hpos Hr. rewrite result_iteration. unfold iteration_body.
  rewrite Hn, Hr, result_bind, result_of_outcome, result_bind.
  rewrite (proj2 (Z.ltb_lt 0 n) Hpos). rewrite result_bind. reflexivity.
Qed.

(** The ways one iteration can end. *)
Lemma iteration_cases w c :
  result (iteration w c) = Val (checked c)
  \/ result (iteration w c) = Val (checked (c + 1))
  \/ result (iteration w c) = Val (Next 0)
  \/ result (iteration w c) = Val (Next (c + 1))
  \/ result (iteration w c) = Val (Continue c)
  \/ result (iteration w c) = Exc KeyboardInterrupt.
Proof.
  assert (Hexc : forall e,
             (if is_Exception e then Val (Next (c + 1)) else Exc e)
             = Val (Next (c + 1))
             \/ (if is_Exception e then @Val flow (Next (c + 1)) else Exc e)
                = Exc KeyboardInterrupt)
    by (intros []; cbn; auto).
  destruct (in_waiting w) as [n | e] eqn:Hn.
  2: { rewrite (result_iteration_poll_fault w c e Hn).
       destruct (Hexc e) as [-> | ->]; auto 10. }
  destruct (Z.ltb_spec 0 n) as [Hpos | Hle].
  2: { left. rewrite (iteration_no_input w c n Hn Hle). reflexivity. }
  destruct (readline w) as [raw | e] eqn:Hr.
  2: { rewrite (result_iteration_read_fault w c n e Hn Hpos Hr).
       destruct (Hexc e) as [-> | ->]; auto 10. }
  destruct (is_empty (strip raw)) eqn:He.
  { rewrite (iteration_blank_line w c n raw Hn Hpos Hr He). auto 10. }
  rewrite result_iteration, (result_iteration_line w c n raw Hn Hpos Hr He).
  fold (checked c) (checked (c + 1)).
  destruct (result (parse_sensor_line (strip raw))) as [[d |] | e].
  - destruct (result (send_sensor_data (net w) d MAX_RETRIES)) as [[] | e];
      auto 10.
    destruct (Hexc e) as [-> | ->]; auto 10.
  - auto 10.
  - destruct (Hexc e) as [-> | ->]; auto 10.
Qed.

Lemma result_while_true_cons w ws c :
  result (while_true (w :: ws) c) =
  match result (iteration w c) with
  | Val (Break c') => Val (Exited c')
  | Val (Next c') | Val (Continue c') => result (while_true ws c')
  | Exc e => Exc e
  end.
Proof.
  cbn [while_true]. rewrite result_bind.
  destruct (result (iteration w c)) as [[c' | c' | c'] | e]; reflexivity.
Qed.

Lemma checked_cases c :
  (checked c = Break c /\ 10 <= c) \/ (checked c = Next c /\ c < 10).
Proof.
  unfold checked, max_consecutive_errors.
  destruct (Z.leb_spec 10 c); [left | right]; split; (reflexivity || lia).
Qed.

(** The loop is left by [break] only with the counter at 10 or above. *)
Theorem exit_only_at_ceiling ws c c' :
  result (while_true ws c) = Val (Exited c') ->
  max_consecutive_errors <= c'.
Proof.
  revert c. induction ws as [| w ws IH]; intros c; [discriminate |].
  rewrite result_while_true_cons.
  destruct (checked_cases c) as [[E1 H1] | [E1 H1]];
  destruct (checked_cases (c + 1)) as [[E2 H2] | [E2 H2]];
  destruct (iteration_cases w c) as [H | [H | [H | [H | [H | H]]]]];
    rewrite H, ?E1, ?E2; try discriminate; try apply IH;
    intros E; injection E as <-; unfold max_consecutive_errors; lia.
Qed.

Lemma exit_only_at_ceiling_witness :
  result (while_true [reads "pH: 7 TDS: 1 Turbidity: 2" unreachable] 9)
  = Val (Exited 10)
  /\ max_consecutive_errors <= 10.
Proof.
  split; [reflexivity |].
  apply (exit_only_at_ceiling
           [reads "pH: 7 TDS: 1 Turbidity: 2" unreachable] 9 10).
  reflexivity.
Defined.

(** Over any run the counter stays between 0 and its start plus the number
    of iterations: an iteration adds at most one. *)
Theorem counter_bounded ws c st :
  0 <= c ->
  result (while_true ws c) = Val st ->
  0 <= state_counter st <= c + Z.of_nat (List.length ws).
Proof.
  revert c. induction ws as [| w ws IH]; intros c Hc.
  - intros E. injection E as <-. cbn. lia.
  - rewrite result_while_true_cons.
    assert (Hlen : Z.of_nat (List.length (w :: ws))
                   = 1 + Z.of_nat (List.length ws))
      by (cbn [List.length]; lia).
    rewrite Hlen.
    destruct (checked_cases c) as [[E1 H1] | [E1 H1]];
    destruct (checked_cases (c + 1)) as [[E2 H2] | [E2 H2]];
    destruct (iteration_cases w c) as [H | [H | [H | [H | [H | H]]]]];
      rewrite H, ?E1, ?E2; try discriminate;
      try (intros E; injection E as <-; cbn [state_counter]; lia);
      intros E; apply IH in E; lia.
Qed.

Lemma counter_bounded_witness :
  result (while_true (repeat unplugged 3) 0) = Val (Running 3)
  /\ 0 <= state_counter (Running 3) <= 0 + Z.of_nat 3.
Proof.
  split; [reflexivity |].
  apply (counter_bounded (repeat unplugged 3) 0 (Running 3)).
  - lia.
  - reflexivity.
Defined.

Lemma iteration_delivery_fails w c :
  delivery_fails w -> result (iteration w c) = Val (checked (c + 1)).
Proof.
  intros (n & raw & d & Hn & Hpos & Hr & He & Hp & Hs).
  rewrite result_iteration, (result_iteration_line w c n raw Hn Hpos Hr He).
  rewrite Hp, Hs. reflexivity.
Qed.

(** When every line read is accepted by the parser and cannot be delivered,
    the loop started with the counter at [c < 10] runs [10 - c] iterations
    and then stops, with the counter at 10. *)
Theorem persistent_delivery_failure_stops ws c :
  (forall w, In w ws -> delivery_fails w) ->
  0 <= c < max_consecutive_errors ->
  result (while_true ws c) =
  Val (if Z.of_nat (List.length ws) <? max_consecutive_errors - c
       then Running (c + Z.of_nat (List.length ws))
       else Exited max_consecutive_errors).
Proof.
  unfold max_consecutive_errors.
  revert c. induction ws as [| w ws IH]; intros c Hall Hc.
  - cbn [List.length while_true]. change (Z.of_nat 0) with 0.
    rewrite (proj2 (Z.ltb_lt 0 (10 - c))) by lia.
    rewrite Z.add_0_r. reflexivity.
  - rewrite result_while_true_cons.
    rewrite (iteration_delivery_fails w c (Hall w (or_introl eq_refl))).
    assert (Hlen : Z.of_nat (List.length (w :: ws))
                   = 1 + Z.of_nat (List.length ws))
      by (cbn [List.length]; lia).
    rewrite Hlen.
    destruct (checked_cases (c + 1)) as [[E H] | [E H]]; rewrite E.
    + assert (c = 9) as -> by lia.
      rewrite (proj2 (Z.ltb_ge _ _)) by lia. reflexivity.
    + rewrite IH; [| intros w' Hw'; apply Hall; right; exact Hw' | lia].
      destruct (Z.ltb_spec (Z.of_nat (List.length ws)) (10 - (c + 1)));
        destruct (Z.ltb_spec (1 + Z.of_nat (List.length ws)) (10 - c));
        try lia; [f_equal; f_equal; lia | reflexivity].
Qed.

Lemma persistent_delivery_failure_stops_witness :
  result (while_true
            (repeat (reads "pH: 7 TDS: 1 Turbidity: 2" unreachable) 12) 0)
  = Val (Exited 10).
Proof.
  apply (persistent_delivery_failure_stops
           (repeat (reads "pH: 7 TDS: 1 Turbidity: 2" unreachable) 12) 0).
  - intros w Hw. apply repeat_spec in Hw. subst w.
    exists 1, "pH: 7 TDS: 1 Turbidity: 2", reading_7_1_2.
    repeat split; reflexivity.
  - unfold max_consecutive_errors. lia.
Defined.

(** Lines that are empty once stripped make the loop spin: each such
    iteration goes back to the top through [continue], with no pause, no
    log record and no breaker test, whatever the counter is. *)
Theorem blank_lines_spin ws c :
  (forall w, In w ws -> reads_blank w) ->
  while_true ws c = (Val (Running c), []).
Proof.
  induction ws as [| w ws IH]; intros Hall; [reflexivity |].
  destruct (Hall w (or_introl eq_refl)) as (n & raw & Hn & Hpos & Hr & He).
  cbn [while_true].
  rewrite (iteration_blank_line w c n raw Hn Hpos Hr He).
  change (@pair (outcome flow) (list event) (Val (Continue c)) [])
    with (ret (Continue c)).
  rewrite bind_ret_l. apply IH. intros w' Hw'. apply Hall. right. exact Hw'.
Qed.

Lemma blank_lines_spin_witness :
  while_true (repeat (reads "  " unreachable) 5) 12 = (Val (Running 12), []).
Proof.
  apply (blank_lines_spin (repeat (reads "  " unreachable) 5) 12).
  intros w Hw. apply repeat_spec in Hw. subst w.
  exists 1, "  ". repeat split; reflexivity.
Defined.

(** The breaker trips at the first iteration that reaches its test: after
    any number of faulting iterations, an iteration with nothing to read
    leaves the loop as soon as the counter is at 10 or above. *)
Theorem breaker_trips_after_faults k c w rest :
  idle w ->
  max_consecutive_errors <= c + Z.of_nat k ->
  result (while_true (repeat unplugged k ++ w :: rest) c) =
  Val (Exited (c + Z.of_nat k)).
Proof.
  intros (n & Hn & Hle). revert c. induction k as [| k IH]; intros c Hc.
  - cbn [repeat app]. rewrite result_while_true_cons.
    rewrite (iteration_no_input w c n Hn Hle). cbn [result fst].
    rewrite (proj2 (Z.leb_le _ _)) by (cbn in Hc; lia).
    rewrite Z.add_0_r. reflexivity.
  - cbn [repeat app]. rewrite result_while_true_cons, iteration_unplugged.
    cbn [result fst]. rewrite IH by lia. f_equal. f_equal. lia.
Qed.

Lemma breaker_trips_after_faults_witness :
  result (while_true
            (repeat unplugged 11
             ++ {| in_waiting := Val 0; readline := Val "";
                   net := unreachable |} :: []) 0)
  = Val (Exited (0 + Z.of_nat 11)).
Proof.
  apply (breaker_trips_after_faults 11 0).
  - exists 0. split; [reflexivity | lia].
  - unfold max_consecutive_errors. lia.
Defined.

(* ===================================================================== *)
(** * Connecting and closing the port *)
(* ===================================================================== *)

Lemma connect_attempt_opened so k :
  so k = Val tt ->
  connect_attempt so k =
  (Val Acquired,
   [SerialOpen PORT BAUD_RATE; Log INFO (Connected PORT); Sleep 2]).
Proof. intros H. unfold connect_attempt. rewrite H. reflexivity. Qed.

Lemma connect_attempt_absent so k :
  so k = Exc SerialException ->
  connect_attempt so k =
  (Val (if k <? connection_retries - 1 then TryAgain else GaveUp),
   [SerialOpen PORT BAUD_RATE;
    Log WARNING (ConnectFailed (k + 1) connection_retries SerialException)]
   ++ (if k <? connection_retries - 1 then [Sleep 2] else five_errors))%list.
Proof.
  intros H. unfold connect_attempt. rewrite H.
  change (connection_retries - 1) with 4. cbn.
  destruct (k <? 4); reflexivity.
Qed.

Lemma connect_attempt_raises so k e :
  so k = Exc e -> is_SerialException e = false ->
  connect_attempt so k = (Exc e, [SerialOpen PORT BAUD_RATE]).
Proof.
  intros H He. unfold connect_attempt. rewrite H. cbn. rewrite He.
  reflexivity.
Qed.

Lemma count_opens_app evs evs' :
  count_opens (evs ++ evs') = count_opens evs + count_opens evs'.
Proof. unfold count_opens. rewrite filter_app, length_app. lia. Qed.

Lemma count_closes_app evs evs' :
  count_closes (evs ++ evs') = count_closes evs + count_closes evs'.
Proof. unfold count_closes. rewrite filter_app, length_app. lia. Qed.

Lemma connect_attempts_absent so l1 l2 :
  (forall k, In k l1 -> so k = Exc SerialException /\ k < connection_retries - 1) ->
  result (connect_attempts so (l1 ++ l2)) = result (connect_attempts so l2)
  /\ count_opens (events (connect_attempts so (l1 ++ l2)))
     = Z.of_nat (List.length l1) + count_opens (events (connect_attempts so l2))
  /\ count_sleeps (events (connect_attempts so (l1 ++ l2)))
     = Z.of_nat (List.length l1) + count_sleeps (events (connect_attempts so l2)).
Proof.
  induction l1 as [| k l1 IH]; intros H.
  - repeat split; cbn [List.length app]; lia.
  - destruct (H k (or_introl eq_refl)) as [Hk Hlt].
    destruct IH as (IH1 & IH2 & IH3); [intros j Hj; apply H; right; exact Hj |].
    cbn [app connect_attempts].
    rewrite result_bind, events_bind, (connect_attempt_absent so k Hk).
    rewrite (proj2 (Z.ltb_lt _ _) Hlt). cbn [result events fst snd].
    rewrite count_opens_app, count_sleeps_app, IH1, IH2, IH3.
    repeat split; unfold count_opens, count_sleeps;
      cbn [app filter is_open_event is_sleep List.length]; lia.
Qed.

(** When the port opens at attempt [k] after [k] failures, the port is
    acquired after [k + 1] openings and [k + 1] pauses of two seconds: one
    after each failure and one to let the device settle. *)
Theorem connect_succeeds_at so k :
  0 <= k < connection_retries ->
  port_absent so k ->
  so k = Val tt ->
  result (connect so) = Val Acquired
  /\ count_opens (events (connect so)) = k + 1
  /\ count_sleeps (events (connect so)) = k + 1.
Proof.
  intros Hk Habs Hok. unfold connect.
  rewrite (range_split connection_retries k Hk).
  destruct (connect_attempts_absent so (range k)
              (k :: map Z.of_nat (seq (S (Z.to_nat k))
                 (Z.to_nat connection_retries - S (Z.to_nat k)))))
    as (H1 & H2 & H3).
  { intros j Hj. apply range_in in Hj. split; [apply Habs; lia | lia]. }
  rewrite H1, H2, H3, range_length by lia.
  cbn [connect_attempts].
  rewrite result_bind, events_bind, (connect_attempt_opened so k Hok).
  cbn [result events fst snd]. repeat split; cbn; lia.
Qed.

Lemma connect_succeeds_at_witness :
  result (connect (fun k => if k <? 2 then Exc SerialException else Val tt))
  = Val Acquired
  /\ count_opens
       (events (connect (fun k => if k <? 2 then Exc SerialException
                                  else Val tt))) = 2 + 1
  /\ count_sleeps
       (events (connect (fun k => if k <? 2 then Exc SerialException
                                  else Val tt))) = 2 + 1.
Proof.
  apply (connect_succeeds_at
           (fun k => if k <? 2 then Exc SerialException else Val tt) 2).
  - unfold connection_retries. lia.
  - intros j Hj. rewrite (proj2 (Z.ltb_lt j 2)) by lia. reflexivity.
  - reflexivity.
Defined.

(** When the port cannot be opened at any of the five attempts, [main]
    gives up after five openings and four pauses: no pause follows the last
    failure. *)
Theorem connect_gives_up so :
  port_absent so connection_retries ->
  result (connect so) = Val GaveUp
  /\ count_opens (events (connect so)) = connection_retries
  /\ count_sleeps (events (connect so)) = connection_retries - 1.
Proof.
  intros Habs. unfold connect.
  rewrite (range_last connection_retries) by (unfold connection_retries; lia).
  destruct (connect_attempts_absent so (range (connection_retries - 1))
              [connection_retries - 1]) as (H1 & H2 & H3).
  { intros j Hj. apply range_in in Hj. split; [apply Habs; lia | lia]. }
  rewrite H1, H2, H3, range_length by (unfold connection_retries; lia).
  cbn [connect_attempts].
  rewrite result_bind, events_bind,
    (connect_attempt_absent so (connection_retries - 1))
    by (apply Habs; unfold connection_retries; lia).
  rewrite Z.ltb_irrefl. cbn [result events fst snd].
  repeat split; cbn; unfold connection_retries; lia.
Qed.

Lemma connect_gives_up_witness :
  result (connect (fun _ => Exc SerialException)) = Val GaveUp
  /\ count_opens (events (connect (fun _ => Exc SerialException)))
     = connection_retries
  /\ count_sleeps (events (connect (fun _ => Exc SerialException)))
     = connection_retries - 1.
Proof.
  apply (connect_gives_up (fun _ => Exc SerialException)).
  intros k _. reflexivity.
Defined.

Lemma count_closes_bind {A B} (m : M A) (k : A -> M B) :
  count_closes (events (bind m k)) =
  count_closes (events m)
  + match result m with
    | Val a => count_closes (events (k a))
    | Exc _ => 0
    end.
Proof.
  rewrite events_bind. destruct (result m); [apply count_closes_app | lia].
Qed.

Lemma events_try_except {A} (m : M A) catches (h : exn -> M A) :
  events (try_except m catches h) =
  (events m ++ match result m with
               | Exc e => if catches e then events (h e) else []
               | Val _ => []
               end)%list.
Proof.
  destruct m as [[a | e] w]; unfold try_except, result, events; cbn [fst snd].
  - rewrite app_nil_r. reflexivity.
  - destruct (catches e); [destruct (h e); reflexivity |].
    cbn [snd]. rewrite app_nil_r. reflexivity.
Qed.

Lemma count_closes_try_except {A} (m : M A) catches (h : exn -> M A) :
  count_closes (events (try_except m catches h)) =
  count_closes (events m)
  + match result m with
    | Exc e => if catches e then count_closes (events (h e)) else 0
    | Val _ => 0
    end.
Proof.
  rewrite events_try_except, count_closes_app.
  destruct (result m) as [a | e]; [reflexivity |].
  destruct (catches e); reflexivity.
Qed.

Lemma events_try_finally {A} (m : M A) (f : M unit) :
  events (try_finally m f) = (events m ++ events f)%list.
Proof.
  destruct m as [r w], f as [[u | e] w']; reflexivity.
Qed.

Lemma validate_closes line fields :
  count_closes (events (validate line fields)) = 0.
Proof.
  destruct fields as [[[p |] [t |]] [u |]]; unfold validate;
    try reflexivity.
  destruct (negb _); [reflexivity |].
  destruct (_ || _); destruct (_ || _); reflexivity.
Qed.

Lemma parse_closes line :
  count_closes (events (parse_sensor_line line)) = 0.
Proof.
  destruct (blank line) eqn:Hb.
  - rewrite (parse_sensor_line_blank _ Hb). reflexivity.
  - rewrite (parse_sensor_line_eq _ Hb). apply validate_closes.
Qed.

Lemma send_attempt_closes net data retries k :
  count_closes (events (send_attempt net data retries k)) = 0.
Proof.
  destruct (net k) as [s t | e] eqn:H.
  - destruct (Z.eq_dec s 200) as [-> | Hs].
    + rewrite (send_attempt_accepted _ _ _ _ _ H). reflexivity.
    + rewrite (send_attempt_rejected _ _ _ _ _ _ H Hs). reflexivity.
  - destruct e; try (rewrite (send_attempt_other _ _ _ _ _ H eq_refl); reflexivity).
    rewrite (send_attempt_request_exception _ _ _ _ H).
    destruct (k <? retries - 1); reflexivity.
Qed.

Lemma send_closes net data retries :
  count_closes (events (send_sensor_data net data retries)) = 0.
Proof.
  unfold send_sensor_data. induction (range retries) as [| k l IH].
  - reflexivity.
  - cbn [send_attempts]. rewrite count_closes_bind, send_attempt_closes.
    destruct (result (send_attempt net data retries k)) as [[b |] | e];
      [reflexivity | exact IH | reflexivity].
Qed.

Lemma iteration_closes w c :
  count_closes (events (iteration w c)) = 0.
Proof.
  unfold iteration. rewrite count_closes_try_except.
  assert (Hb : count_closes (events (iteration_body w c)) = 0).
  { unfold iteration_body.
    rewrite count_closes_bind.
    destruct (in_waiting w) as [n | e]; cbn [of_outcome result events fst snd];
      [| reflexivity].
    change (count_closes []) with 0. rewrite Z.add_0_l.
    rewrite count_closes_bind.
    match goal with
    | |- count_closes (events ?inner) + _ = 0 =>
        assert (Hin : count_closes (events inner) = 0)
    end.
    { destruct (0 <? n); [| reflexivity].
      rewrite count_closes_bind.
      destruct (readline w) as [raw | e];
        cbn [of_outcome result events fst snd]; [| reflexivity].
      change (count_closes []) with 0. rewrite Z.add_0_l. cbv zeta.
      destruct (is_empty (strip raw)); [reflexivity |].
      rewrite count_closes_bind. cbn [log emit result events fst snd].
      change (count_closes [Log DEBUG (ReceivedLine (strip raw))]) with 0.
      rewrite Z.add_0_l, count_closes_bind, parse_closes, Z.add_0_l.
      destruct (result (parse_sensor_line (strip raw))) as [[d |] | e];
        [| reflexivity | reflexivity].
      rewrite count_closes_bind, send_closes.
      destruct (result (send_sensor_data (net w) d MAX_RETRIES))
        as [[] | e]; reflexivity. }
    rewrite Hin, Z.add_0_l.
    match goal with |- context [result ?m] => destruct (result m) as [[c' | c'] | e] end;
      [reflexivity | | reflexivity].
    rewrite count_closes_bind. cbn [sleep emit result events fst snd].
    destruct (max_consecutive_errors <=? c'); reflexivity. }
  rewrite Hb.
  destruct (result (iteration_body w c)) as [f | e]; [reflexivity |].
  destruct (is_Exception e); reflexivity.
Qed.

Lemma while_true_closes ws c :
  count_closes (events (while_true ws c)) = 0.
Proof.
  revert c. induction ws as [| w ws IH]; intros c; [reflexivity |].
  cbn [while_true]. rewrite count_closes_bind, iteration_closes.
  destruct (result (iteration w c)) as [[c' | c' | c'] | e];
    try apply IH; reflexivity.
Qed.

Lemma connect_attempt_cases so k :
  (connect_attempt so k =
   (Val Acquired,
    [SerialOpen PORT BAUD_RATE; Log INFO (Connected PORT); Sleep 2]))
  \/ (connect_attempt so k =
      (Val (if k <? connection_retries - 1 then TryAgain else GaveUp),
       [SerialOpen PORT BAUD_RATE;
        Log WARNING (ConnectFailed (k + 1) connection_retries
                       SerialException)]
       ++ (if k <? connection_retries - 1 then [Sleep 2]
           else five_errors))%list)
  \/ (exists e, connect_attempt so k = (Exc e, [SerialOpen PORT BAUD_RATE])).
Proof.
  destruct (so k) as [[] | e] eqn:H.
  - left. apply connect_attempt_opened, H.
  - destruct (is_SerialException e) eqn:He.
    + right; left. destruct e; try discriminate.
      apply connect_attempt_absent, H.
    + right; right. exists e. apply connect_attempt_raises; assumption.
Qed.

Ltac count_events :=
  unfold count_opens, count_closes, five_errors;
  cbn [events snd ret app filter is_open_event is_close_event List.length];
  try reflexivity; try lia.

Lemma connect_attempts_facts so l :
  count_closes (events (connect_attempts so l)) = 0
  /\ 0 <= count_opens (events (connect_attempts so l))
       <= Z.of_nat (List.length l)
  /\ (result (connect_attempts so l) = Val TryAgain ->
      forall k, In k l -> k < connection_retries - 1).
Proof.
  induction l as [| k l (IH1 & IH2 & IH3)].
  - split; [reflexivity | split; [cbn; lia | intros _ k []]].
  - cbn [connect_attempts]. rewrite count_closes_bind, events_bind, result_bind.
    assert (Hlen : Z.of_nat (List.length (k :: l))
                   = 1 + Z.of_nat (List.length l))
      by (cbn [List.length]; lia).
    rewrite Hlen.
    destruct (connect_attempt_cases so k) as [H | [H | [e H]]]; rewrite H;
      cbn [result events fst snd].
    + split; [count_events | split; [count_events | discriminate]].
    + destruct (Z.ltb_spec k (connection_retries - 1)) as [Hk | Hk].
      * rewrite count_opens_app. split; [| split].
        -- rewrite IH1. count_events.
        -- assert (E : count_opens
                         ([SerialOpen PORT BAUD_RATE;
                           Log WARNING (ConnectFailed (k + 1)
                                          connection_retries SerialException)]
                          ++ [Sleep 2]) = 1) by reflexivity.
           rewrite E. lia.
        -- intros E j [<- | Hj]; [exact Hk | exact (IH3 E j Hj)].
      * split; [count_events | split; [count_events | discriminate]].
    + split; [count_events | split; [count_events | discriminate]].
Qed.

Lemma connect_not_try_again so s :
  result (connect so) = Val s -> s = Acquired \/ s = GaveUp.
Proof.
  intros H. unfold connect in *.
  destruct (connect_attempts_facts so (range connection_retries))
    as (_ & _ & Ht).
  destruct s; auto. exfalso.
  pose proof (Ht H (connection_retries - 1)) as Hk.
  assert (Hin : In (connection_retries - 1) (range connection_retries))
    by (do 4 right; left; reflexivity).
  specialize (Hk Hin). lia.
Qed.

(** The connection loop never runs out: [connect] ends with the port
    acquired, with [main] returning, or with an exception, and it opens the
    port at most five times. *)
Theorem connect_never_runs_out so s :
  result (connect so) = Val s ->
  (s = Acquired \/ s = GaveUp)
  /\ 0 <= count_opens (events (connect so)) <= connection_retries.
Proof.
  intros H. split.
  - exact (connect_not_try_again so s H).
  - unfold connect.
    destruct (connect_attempts_facts so (range connection_retries))
      as (_ & Ho & _).
    rewrite range_length in Ho by (unfold connection_retries; lia).
    exact Ho.
Qed.

Lemma connect_never_runs_out_witness :
  (GaveUp = Acquired \/ GaveUp = GaveUp)
  /\ 0 <= count_opens (events (connect (fun _ => Exc SerialException)))
       <= connection_retries.
Proof.
  apply (connect_never_runs_out (fun _ => Exc SerialException) GaveUp).
  reflexivity.
Defined.

Lemma connect_closes so : count_closes (events (connect so)) = 0.
Proof. apply connect_attempts_facts. Qed.

Lemma while_true_raises ws c e :
  result (while_true ws c) = Exc e -> e = KeyboardInterrupt.
Proof.
  revert c. induction ws as [| w ws IH]; intros c; [discriminate |].
  rewrite result_while_true_cons.
  destruct (checked_cases c) as [[E1 _] | [E1 _]];
  destruct (checked_cases (c + 1)) as [[E2 _] | [E2 _]];
  destruct (iteration_cases w c) as [H | [H | [H | [H | [H | H]]]]];
    rewrite H, ?E1, ?E2; try discriminate; try apply IH;
    intros E; injection E as <-; reflexivity.
Qed.

Lemma supervise_closes w :
  count_closes (events (supervise w)) =
  match result (supervise w) with
  | Val (BreakerTripped _) | Val Interrupted => if is_open w then 1 else 0
  | _ => 0
  end.
Proof.
  unfold supervise.
  pose proof (while_true_closes (iterations w) 0) as Hc.
  pose proof (while_true_raises (iterations w) 0) as He.
  destruct (while_true (iterations w) 0) as [[[c | c] | e] evs];
    unfold events, result in Hc, He; cbn [fst snd] in Hc, He.
  - cbn [events result fst snd]. exact Hc.
  - unfold close_port.
    destruct (is_open w); cbn; unfold count_closes in *;
      rewrite ?app_nil_r, ?filter_app, ?length_app; cbn; lia.
  - rewrite (He e eq_refl). unfold close_port.
    destruct (is_open w); cbn; unfold count_closes in *;
      rewrite ?app_nil_r, ?filter_app, ?length_app; cbn; lia.
Qed.

(** [main] closes the port exactly once when the loop was left, by the
    breaker or by an interrupt, and the port is still open; it does not
    close it while the loop runs, when the connection was given up, or when
    it raises before the loop. *)
Theorem main_closes_port_once w :
  count_closes (events (main w)) =
  match result (main w) with
  | Val (BreakerTripped _) | Val Interrupted => if is_open w then 1 else 0
  | _ => 0
  end.
Proof.
  unfold main.
  rewrite count_closes_bind, result_bind. cbn [log emit result events fst snd].
  rewrite count_closes_bind, result_bind. cbn [emit result events fst snd].
  rewrite count_closes_bind, result_bind.
  destruct (db_init w) as [[] | e]; cbn [of_outcome result events fst snd];
    [| reflexivity].
  rewrite count_closes_bind, result_bind, connect_closes.
  destruct (result (connect (serial_open w))) as [s | e] eqn:Hs;
    [| reflexivity].
  destruct (connect_not_try_again _ _ Hs) as [-> | ->].
  - rewrite supervise_closes.
    destruct (result (supervise w)) as [[] |]; reflexivity.
  - reflexivity.
Qed.


(* ===================================================================== *)
(** * The collector *)
(* ===================================================================== *)

Module SrvFacts.
Import Srv Db Crud Api SrvSamples.
Local Open Scope srv_scope.

Lemma srv_bind_ret_l {A B} (a : A) (k : A -> M B) : bind (ret a) k = k a.
Proof. unfold bind, ret. destruct (k a). reflexivity. Qed.

Lemma srv_result_bind {A B} (m : M A) (k : A -> M B) :
  result (bind m k) =
  match result m with
  | Val a => result (k a)
  | Exc e => Exc e
  end.
Proof.
  destruct m as [[a | e] w]; unfold bind, result; cbn [fst];
    [destruct (k a) |]; reflexivity.
Qed.

Lemma srv_events_bind {A B} (m : M A) (k : A -> M B) :
  events (bind m k) =
  match result m with
  | Val a => (events m ++ events (k a))%list
  | Exc _ => events m
  end.
Proof.
  destruct m as [[a | e] w]; unfold bind, result, events; cbn [fst snd];
    [destruct (k a) |]; reflexivity.
Qed.

Lemma srv_result_try_except {A} (m : M A) catches (h : exn -> M A) :
  result (try_except m catches h) =
  match result m with
  | Val a => Val a
  | Exc e => if catches e then result (h e) else Exc e
  end.
Proof.
  destruct m as [[a | e] w]; unfold try_except, result; cbn [fst];
    [reflexivity |].
  destruct (catches e); [destruct (h e) |]; reflexivity.
Qed.

Lemma srv_events_try_except {A} (m : M A) catches (h : exn -> M A) :
  events (try_except m catches h) =
  (events m ++ match result m with
               | Exc e => if catches e then events (h e) else []
               | Val _ => []
               end)%list.
Proof.
  destruct m as [[a | e] w]; unfold try_except, result, events; cbn [fst snd].
  - rewrite app_nil_r. reflexivity.
  - destruct (catches e); [destruct (h e); reflexivity |].
    cbn [snd]. rewrite app_nil_r. reflexivity.
Qed.

Lemma srv_result_try_finally {A} (m : M A) (f : M unit) :
  result (try_finally m f) =
  match result f with
  | Val _ => result m
  | Exc e => Exc e
  end.
Proof. destruct m as [r w], f as [[u | e] w']; reflexivity. Qed.

Lemma srv_events_try_finally {A} (m : M A) (f : M unit) :
  events (try_finally m f) = (events m ++ events f)%list.
Proof. destruct m as [r w], f as [[u | e] w']; reflexivity. Qed.

Lemma count_app p evs evs' :
  count p (evs ++ evs') = count p evs + count p evs'.
Proof. unfold count. rewrite filter_app, length_app. lia. Qed.

Lemma count_bind {A B} p (m : M A) (k : A -> M B) :
  count p (events (bind m k)) =
  count p (events m)
  + match result m with
    | Val a => count p (events (k a))
    | Exc _ => 0
    end.
Proof.
  rewrite srv_events_bind. destruct (result m); [apply count_app |].
  lia.
Qed.

Lemma count_try_except {A} p (m : M A) catches (h : exn -> M A) :
  count p (events (try_except m catches h)) =
  count p (events m)
  + match result m with
    | Exc e => if catches e then count p (events (h e)) else 0
    | Val _ => 0
    end.
Proof.
  rewrite srv_events_try_except, count_app.
  destruct (result m) as [a | e]; [reflexivity |].
  destruct (catches e); reflexivity.
Qed.

Lemma count_try_finally {A} p (m : M A) (f : M unit) :
  count p (events (try_finally m f)) =
  count p (events m) + count p (events f).
Proof. rewrite srv_events_try_finally. apply count_app. Qed.

Section Plain.
(** A test on events that ignores opening, statements, log records and the
    directory: the tests for commit, rollback and close are such. *)
Variable p : event -> bool.
Hypothesis p_open : p DbOpen = false.
Hypothesis p_execute : forall s, p (DbExecute s) = false.
Hypothesis p_log : forall l m, p (Log l m) = false.
Hypothesis p_mkdir : p Mkdir = false.

Lemma count_ret {A} (a : A) : count p (events (ret a)) = 0.
Proof. reflexivity. Qed.

Lemma count_raise {A} e : count p (events (@raise A e)) = 0.
Proof. reflexivity. Qed.

Lemma count_of_outcome {A} (o : outcome A) :
  count p (events (of_outcome o)) = 0.
Proof. reflexivity. Qed.

Lemma count_log l m : count p (events (log l m)) = 0.
Proof. unfold log, emit, events, count. cbn [snd filter]. rewrite p_log. reflexivity. Qed.

Lemma count_run db s : count p (events (run db s)) = 0.
Proof.
  unfold run. rewrite count_bind.
  unfold emit at 1. unfold events at 1, count at 1. cbn [snd filter].
  rewrite p_execute. cbn [result emit fst]. reflexivity.
Qed.

Lemma count_get_connection db : count p (events (get_connection db)) = 0.
Proof.
  unfold get_connection.
  rewrite count_bind. unfold emit at 1. unfold events at 1, count at 1.
  cbn [snd filter]. rewrite p_open. cbn [result emit fst List.length].
  rewrite count_bind, count_of_outcome.
  destruct (result (of_outcome (open db))); [| reflexivity].
  rewrite count_bind, count_run.
  destruct (result (run db PragmaForeignKeys)); [| reflexivity].
  rewrite count_bind, count_run.
  destruct (result (run db PragmaJournalWal)); reflexivity.
Qed.

Lemma count_to_reading db r : count p (events (to_reading db r)) = 0.
Proof.
  unfold to_reading. destruct (fromisoformat db _); reflexivity.
Qed.

Lemma count_to_point db r : count p (events (to_point db r)) = 0.
Proof.
  unfold to_point. destruct (parse_time db _); reflexivity.
Qed.

Lemma count_to_points db rows : count p (events (to_points db rows)) = 0.
Proof.
  induction rows as [| r rows IH]; [reflexivity |].
  cbn [to_points]. rewrite count_bind, count_to_point.
  destruct (result (to_point db r)); [| reflexivity].
  rewrite count_bind, IH.
  destruct (result (to_points db rows)); reflexivity.
Qed.

End Plain.

Lemma count_emit p ev : count p (events (emit ev)) = if p ev then 1 else 0.
Proof. unfold emit, events, count. cbn [snd filter]. destruct (p ev); reflexivity. Qed.

Lemma count_closing_close db : count is_db_close (events (closing db)) = 1.
Proof. unfold closing. rewrite count_bind, count_emit. reflexivity. Qed.

Ltac zero_counts :=
  rewrite ?count_ret, ?count_raise, ?count_of_outcome,
    ?count_log, ?count_run, ?count_get_connection,
    ?count_to_reading, ?count_to_points, ?count_emit
    by (intros; reflexivity).

Ltac count_through :=
  repeat (first
    [ rewrite count_bind
    | rewrite count_try_except
    | rewrite count_try_finally
    | progress zero_counts
    | progress cbn [is_db_close is_db_commit is_db_rollback is_db_open]
    | match goal with
      | |- context [match result ?m with _ => _ end] =>
          destruct (result m)
      | |- context [if ?b then _ else _] => destruct b
      | |- context [match fetchone ?db with _ => _ end] =>
          destruct (fetchone db)
      end ]);
  cbn [is_db_close is_db_commit is_db_rollback]; try reflexivity; try lia.

Lemma create_closes_once db data :
  count is_db_close (events (create_sensor_reading db data)) =
  match result (get_connection db) with
  | Val _ => 1
  | Exc _ => 0
  end.
Proof.
  unfold create_sensor_reading.
  rewrite count_bind, count_get_connection by (intros; reflexivity).
  destruct (result (get_connection db)); [| reflexivity].
  rewrite count_try_finally. fold (closing db).
  rewrite count_closing_close.
  count_through.
Qed.

Lemma count_closing_other p db :
  p DbClose = false -> count p (events (closing db)) = 0.
Proof.
  intros H. unfold closing. rewrite count_bind, count_emit, H. reflexivity.
Qed.

(** Each function of [crud.py] closes the connection exactly once when
    [get_connection] returned, whatever fails afterwards, and closes
    nothing when [get_connection] raised. *)
Theorem crud_closes_connection_once db data period days :
  period_days period = Some days ->
  count is_db_close (events (create_sensor_reading db data))
  = match result (get_connection db) with Val _ => 1 | Exc _ => 0 end
  /\ count is_db_close (events (get_latest_sensor_reading db))
     = match result (get_connection db) with Val _ => 1 | Exc _ => 0 end
  /\ count is_db_close (events (get_history db period))
     = match result (get_connection db) with Val _ => 1 | Exc _ => 0 end.
Proof.
  intros Hp. split; [| split].
  - apply create_closes_once.
  - unfold get_latest_sensor_reading.
    rewrite count_bind, count_get_connection by (intros; reflexivity).
    destruct (result (get_connection db)); [| reflexivity].
    rewrite count_try_finally. fold (closing db).
    rewrite count_closing_close. count_through.
  - unfold get_history. rewrite Hp.
    rewrite count_bind, count_get_connection by (intros; reflexivity).
    destruct (result (get_connection db)); [| reflexivity].
    rewrite count_try_finally. fold (closing db).
    rewrite count_closing_close. count_through.
Qed.

Lemma crud_closes_connection_once_witness :
  count is_db_close (events (create_sensor_reading db_ok Samples.reading_7_1_2))
  = 1
  /\ count is_db_close (events (get_latest_sensor_reading db_ok)) = 1
  /\ count is_db_close (events (get_history db_ok "1month")) = 1.
Proof.
  apply (crud_closes_connection_once db_ok Samples.reading_7_1_2 "1month" 30).
  reflexivity.
Defined.

Lemma get_connection_healthy db :
  healthy db -> get_connection db =
  (Val tt, [DbOpen; DbExecute PragmaForeignKeys; DbExecute PragmaJournalWal]).
Proof.
  intros (_ & Ho & He & _). unfold get_connection, run.
  rewrite Ho, !He. reflexivity.
Qed.

Lemma create_returns db data r :
  result (create_sensor_reading db data) = Val r ->
  exists rw t,
    fetchone db = Some rw
    /\ fromisoformat db (replace_Z (row_timestamp rw)) = Some t
    /\ r = {| id := row_id rw; timestamp := t; reading_ph := row_ph rw;
              reading_tds := row_tds rw;
              reading_turbidity := row_turbidity rw |}
    /\ create_sensor_reading db data =
       (Val r,
        [DbOpen; DbExecute PragmaForeignKeys; DbExecute PragmaJournalWal;
         DbExecute (InsertSensorData (Eff.ph data) (Eff.tds data)
                                     (Eff.turbidity data));
         DbCommit; DbExecute (SelectSensorDataById (lastrowid db));
         DbClose]).
Proof.
  unfold create_sensor_reading, get_connection, run, to_reading.
  destruct (close db) as [[] | ec];
  destruct (rollback db) as [[] | er];
  (destruct (open db) as [[] | e]; [| discriminate]);
  (destruct (execute db PragmaForeignKeys) as [[] | e];
   [| discriminate]);
  (destruct (execute db PragmaJournalWal) as [[] | e];
   [| discriminate]);
  (destruct (execute db (InsertSensorData _ _ _)) as [[] | e];
   [| destruct e; discriminate]);
  (destruct (commit db) as [[] | e]; [| destruct e; discriminate]);
  (destruct (execute db (SelectSensorDataById _)) as [[] | e];
   [| destruct e; discriminate]);
  (destruct (fetchone db) as [rw |]; [| discriminate]);
  (destruct (fromisoformat db _) as [t |] eqn:Ht; [| discriminate]);
  try discriminate.
  all: cbn; intros H; injection H as <-; exists rw, t; repeat split;
    assumption.
Qed.

(** When [create_sensor_reading] returns, the insert was committed once and
    not rolled back, and the reading returned is the row read back from the
    table: its id and its values are those of the row. *)
Theorem stored_reading_is_the_row db data r :
  result (create_sensor_reading db data) = Val r ->
  count is_db_commit (events (create_sensor_reading db data)) = 1
  /\ count is_db_rollback (events (create_sensor_reading db data)) = 0
  /\ exists rw, fetchone db = Some rw
       /\ id r = row_id rw /\ reading_ph r = row_ph rw
       /\ reading_tds r = row_tds rw
       /\ reading_turbidity r = row_turbidity rw.
Proof.
  intros H. destruct (create_returns db data r H) as (rw & t & Hf & _ & -> & E).
  rewrite E. split; [reflexivity | split; [reflexivity |]].
  exists rw. repeat split; assumption || reflexivity.
Qed.

Lemma stored_reading_is_the_row_witness :
  count is_db_commit
    (events (create_sensor_reading db_ok Samples.reading_7_1_2)) = 1
  /\ count is_db_rollback
       (events (create_sensor_reading db_ok Samples.reading_7_1_2)) = 0
  /\ exists rw, fetchone db_ok = Some rw
       /\ 1 = row_id rw /\ of_int 7 = row_ph rw
       /\ of_int 1 = row_tds rw /\ of_int 2 = row_turbidity rw.
Proof.
  apply (stored_reading_is_the_row db_ok Samples.reading_7_1_2
           {| id := 1; timestamp := 1704067200000000; reading_ph := of_int 7;
              reading_tds := of_int 1; reading_turbidity := of_int 2 |}).
  reflexivity.
Defined.

(** A failure after the commit leaves the row in the table: when the insert
    and the commit succeed and the row cannot be read back, the function
    raises [ValueError] after a rollback that comes too late to undo the
    insert. *)
Theorem late_failure_keeps_the_row db data :
  healthy db -> fetchone db = None ->
  create_sensor_reading db data =
  (Exc ValueError,
   [DbOpen; DbExecute PragmaForeignKeys; DbExecute PragmaJournalWal;
    DbExecute (InsertSensorData (Eff.ph data) (Eff.tds data)
                                (Eff.turbidity data));
    DbCommit; DbExecute (SelectSensorDataById (lastrowid db));
    DbRollback; Log Eff.ERROR (CrudCreateFailed ValueError); DbClose]).
Proof.
  intros Hh Hf. pose proof (get_connection_healthy db Hh) as Hg.
  destruct Hh as (_ & _ & He & Hc & Hr & Hcl).
  unfold create_sensor_reading, run. rewrite Hg, !He, Hc, Hr, Hcl, Hf.
  reflexivity.
Qed.

Lemma late_failure_keeps_the_row_witness :
  create_sensor_reading db_empty Samples.reading_7_1_2 =
  (Exc ValueError,
   [DbOpen; DbExecute PragmaForeignKeys; DbExecute PragmaJournalWal;
    DbExecute (InsertSensorData (of_int 7) (of_int 1) (of_int 2));
    DbCommit; DbExecute (SelectSensorDataById 1);
    DbRollback; Log Eff.ERROR (CrudCreateFailed ValueError); DbClose]).
Proof.
  apply (late_failure_keeps_the_row db_empty Samples.reading_7_1_2).
  - repeat split; reflexivity.
  - reflexivity.
Defined.

Lemma create_sensor_unacceptable db data :
  acceptable data = false ->
  exists detail,
    create_sensor db data = (Exc (HTTPException 400 detail), []).
Proof.
  unfold acceptable, create_sensor, reject_if. intros H.
  destruct (le (of_int 0) (Eff.ph data) && le (Eff.ph data) (of_int 14));
    [| eexists; reflexivity].
  destruct (lt (Eff.tds data) (of_int 0)); [eexists; reflexivity |].
  destruct (lt (Eff.turbidity data) (of_int 0)); [eexists; reflexivity |].
  discriminate.
Qed.

Lemma create_sensor_acceptable db data :
  acceptable data = true ->
  create_sensor db data =
  try_except
    (reading <- create_sensor_reading db data ;;
     log Eff.INFO (ApiCreated reading) ;;
     ret reading)
    is_Exception
    (fun e =>
       match e with
       | HTTPException _ _ => raise e
       | _ =>
           log Eff.ERROR (ApiCreateFailed e) ;;
           raise (HTTPException 500 "Internal server error")
       end).
Proof.
  unfold acceptable, create_sensor, reject_if. intros H.
  apply andb_true_iff in H as [H Hu]. apply andb_true_iff in H as [Hp Ht].
  apply negb_true_iff in Hu, Ht. rewrite Hp, Ht, Hu. cbn [negb].
  rewrite !srv_bind_ret_l. reflexivity.
Qed.

(** [POST /sensor] stores nothing that fails its checks: data with a pH
    not inside [0, 14], a negative TDS or a negative turbidity is answered
    400 before the database is touched, and a reading is returned only for
    data that pass the three tests. *)
Theorem api_validates_before_storing db data :
  (acceptable data = false ->
   exists detail,
     create_sensor db data = (Exc (HTTPException 400 detail), []))
  /\ (forall r, result (create_sensor db data) = Val r ->
      acceptable data = true).
Proof.
  split; [apply create_sensor_unacceptable |].
  intros r H. destruct (acceptable data) eqn:E; [reflexivity |].
  destruct (create_sensor_unacceptable db data E) as [d Hd].
  rewrite Hd in H. discriminate.
Qed.

Lemma api_validates_before_storing_witness :
  exists detail,
    create_sensor db_ok {| Eff.ph := of_int 7; Eff.tds := of_int (-5);
                           Eff.turbidity := of_int 2 |}
    = (Exc (HTTPException 400 detail), []).
Proof.
  apply (proj1 (api_validates_before_storing db_ok
                  {| Eff.ph := of_int 7; Eff.tds := of_int (-5);
                     Eff.turbidity := of_int 2 |})).
  reflexivity.
Defined.



(** [init_db] can be run on a database that already has the column
    [comments]: the [OperationalError] of the ALTER TABLE is ignored, the
    statements are committed once, nothing is rolled back and the
    connection is closed. *)
Theorem init_db_tolerates_existing_column db :
  mkdir db = Val tt -> open db = Val tt ->
  (forall s, s <> AlterPingsAddComments -> execute db s = Val tt) ->
  execute db AlterPingsAddComments = Val tt
  \/ execute db AlterPingsAddComments = Exc OperationalError ->
  commit db = Val tt -> close db = Val tt ->
  result (init_db db) = Val tt
  /\ count is_db_commit (events (init_db db)) = 1
  /\ count is_db_rollback (events (init_db db)) = 0
  /\ count is_db_close (events (init_db db)) = 1.
Proof.
  intros Hm Ho He Ha Hc Hcl.
  unfold init_db, get_connection, run.
  rewrite Hm, Ho, Hc, Hcl.
  rewrite !He by discriminate.
  destruct Ha as [-> | ->]; repeat split; reflexivity.
Qed.

Lemma init_db_tolerates_existing_column_witness :
  result (init_db
            {| mkdir := Val tt; open := Val tt;
               execute := fun s => match s with
                                   | AlterPingsAddComments =>
                                       Exc OperationalError
                                   | _ => Val tt
                                   end;
               lastrowid := 0; fetchone := None; fetchall := [];
               commit := Val tt; rollback := Val tt; close := Val tt;
               utcnow := 0; fromisoformat := fun _ => None;
               parse_time := fun _ => None |}) = Val tt.
Proof.
  apply (init_db_tolerates_existing_column
           {| mkdir := Val tt; open := Val tt;
              execute := fun s => match s with
                                  | AlterPingsAddComments =>
                                      Exc OperationalError
                                  | _ => Val tt
                                  end;
              lastrowid := 0; fetchone := None; fetchall := [];
              commit := Val tt; rollback := Val tt; close := Val tt;
              utcnow := 0; fromisoformat := fun _ => None;
              parse_time := fun _ => None |});
    try reflexivity.
  - intros s Hs. destruct s; try reflexivity. congruence.
  - right. reflexivity.
Defined.

Lemma unknown_period_spec period :
  unknown_period period = true <-> period_days period = None.
Proof.
  unfold unknown_period, period_days. cbn [existsb].
  destruct (String.eqb period "1day"), (String.eqb period "1month"),
    (String.eqb period "6months"); cbn; split; congruence.
Qed.

Lemma period_days_values period days :
  period_days period = Some days -> days = 1 \/ days = 30 \/ days = 180.
Proof.
  unfold period_days.
  destruct (String.eqb period "1day"); [intros H; injection H; auto |].
  destruct (String.eqb period "1month"); [intros H; injection H; auto |].
  destruct (String.eqb period "6months"); [intros H; injection H; auto |].
  discriminate.
Qed.

Lemma start_seconds now days :
  strftime_seconds (now - days * microseconds_per_day)
  = now / 1000000 - days * 86400.
Proof.
  unfold strftime_seconds, microseconds_per_day.
  replace (now - days * (86400 * 1000000))
    with (now + (- (days * 86400)) * 1000000) by lia.
  rewrite Z.div_add by lia. lia.
Qed.

Lemma to_points_all db rows :
  (forall r, In r rows -> parse_time db (row_timestamp r) <> None) ->
  exists ps, to_points db rows = (Val ps, [])
             /\ List.length ps = List.length rows.
Proof.
  induction rows as [| r rows IH]; intros H.
  - exists []. split; reflexivity.
  - destruct IH as (ps & E & L); [intros r' Hr'; apply H; right; exact Hr' |].
    cbn [to_points]. unfold to_point.
    destruct (parse_time db (row_timestamp r)) as [t |] eqn:Ht;
      [| exfalso; exact (H r (or_introl eq_refl) Ht)].
    rewrite srv_bind_ret_l, E. eexists. split; [reflexivity |].
    cbn [List.length]. rewrite L. reflexivity.
Qed.

(** [GET /history] and [get_history] agree on the periods: a period outside
    "1day", "1month", "6months" is answered 400 before the database is
    opened, so the [ValueError] of [get_history] for an unknown period is
    never raised through the endpoint; for the three periods, on a database
    that works and whose time stamps parse, the rows asked for are those
    since 1, 30 or 180 days before now, to the second. *)
Theorem history_periods db period :
  (unknown_period period = true ->
   history db period =
   (Exc (HTTPException 400 "Invalid period. Use 1day, 1month, or 6months."),
    []))
  /\ (unknown_period period = false ->
      exists days,
        period_days period = Some days
        /\ (days = 1 \/ days = 30 \/ days = 180)
        /\ (healthy db ->
            (forall r, In r (fetchall db) ->
                       parse_time db (row_timestamp r) <> None) ->
            exists points,
              history db period =
              (Val points,
               [DbOpen; DbExecute PragmaForeignKeys;
                DbExecute PragmaJournalWal;
                DbExecute (SelectSensorDataSince
                             (utcnow db / 1000000 - days * 86400));
                DbClose;
                Log Eff.DEBUG (ApiHistory (List.length (fetchall db))
                                          period)]))).
Proof.
  split.
  - intros H. unfold history, reject_if. rewrite H. reflexivity.
  - intros H.
    destruct (period_days period) as [days |] eqn:Hd.
    2: { apply unknown_period_spec in Hd. congruence. }
    exists days. split; [reflexivity |].
    split; [exact (period_days_values period days Hd) |].
    intros Hh Hrows. pose proof (get_connection_healthy db Hh) as Hg.
    destruct Hh as (_ & _ & He & _ & _ & Hcl).
    destruct (to_points_all db (fetchall db) Hrows) as (ps & Hps & Hlen).
    exists ps. unfold history, reject_if, get_history, run.
    rewrite H, Hd, Hg, start_seconds, He, Hcl, Hps.
    cbn. rewrite Hlen. reflexivity.
Qed.

Lemma history_periods_witness :
  history db_ok "2weeks" =
  (Exc (HTTPException 400 "Invalid period. Use 1day, 1month, or 6months."),
   []).
Proof.
  apply (proj1 (history_periods db_ok "2weeks")). reflexivity.
Defined.

(** [GET /latest] on a database that works: with no row the answer is 404,
    raised inside the [try] and passed on as it is, not turned into a 500,
    and nothing is logged as an error; a reading returned is the row
    fetched. *)
Theorem latest_without_rows_is_404 db :
  healthy db ->
  (fetchone db = None ->
   latest db =
   (Exc (HTTPException 404
      "No sensor data available. Please ensure the Arduino worker is running and sending data."),
    [DbOpen; DbExecute PragmaForeignKeys; DbExecute PragmaJournalWal;
     DbExecute SelectLatestSensorData; DbClose]))
  /\ (forall r, result (latest db) = Val r ->
      exists rw, fetchone db = Some rw /\ id r = row_id rw
                 /\ reading_ph r = row_ph rw /\ reading_tds r = row_tds rw
                 /\ reading_turbidity r = row_turbidity rw).
Proof.
  intros Hh. pose proof (get_connection_healthy db Hh) as Hg.
  destruct Hh as (_ & _ & He & _ & _ & Hcl).
  unfold latest, get_latest_sensor_reading, run, to_reading.
  rewrite Hg, He, Hcl. split.
  - intros Hf. rewrite Hf. reflexivity.
  - intros r. destruct (fetchone db) as [rw |]; [| discriminate].
    destruct (fromisoformat db _); [| discriminate].
    cbn. intros H. injection H as <-. exists rw. repeat split; reflexivity.
Qed.

Lemma latest_without_rows_is_404_witness :
  latest db_empty =
  (Exc (HTTPException 404
     "No sensor data available. Please ensure the Arduino worker is running and sending data."),
   [DbOpen; DbExecute PragmaForeignKeys; DbExecute PragmaJournalWal;
    DbExecute SelectLatestSensorData; DbClose]).
Proof.
  apply (proj1 (latest_without_rows_is_404 db_empty
                  ltac:(repeat split; reflexivity))).
  reflexivity.
Defined.

End SrvFacts.
